(** * APKSimilarityCompare: the feature extractor and the five similarity
      metrics of [main.py], embedded and verified.

    The embedding follows [main.py] function by function.  Python [str]
    values are strings of (UTF-8) bytes, Python sets of strings are
    [gset string], [len] results are [nat], and the numbers produced by
    true division [/] are exact rationals [Q] compared with [==] (Python's
    numeric [==], which identifies [1] and [1.0]).  Exceptions are explicit:
    every operation that can raise returns a [result]. *)

From Stdlib Require Import ZArith QArith Qminmax Lia Lqa String Ascii List DecimalString.
From stdpp Require Import base option list gmap strings.

Local Open Scope string_scope.

(** ** hashlib.md5(...).hexdigest() *)

Module MD5.
Local Open Scope Z_scope.

Definition w32 (x : Z) : Z := Z.land x 4294967295.

Definition not32 (x : Z) : Z := Z.lxor x 4294967295.

Definition rotl32 (x c : Z) : Z :=
  w32 (Z.lor (Z.shiftl x c) (Z.shiftr x (32 - c))).

Definition shifts : list Z :=
  [7; 12; 17; 22; 7; 12; 17; 22; 7; 12; 17; 22; 7; 12; 17; 22;
   5; 9; 14; 20; 5; 9; 14; 20; 5; 9; 14; 20; 5; 9; 14; 20;
   4; 11; 16; 23; 4; 11; 16; 23; 4; 11; 16; 23; 4; 11; 16; 23;
   6; 10; 15; 21; 6; 10; 15; 21; 6; 10; 15; 21; 6; 10; 15; 21].

Definition sines : list Z :=
  [3614090360; 3905402710; 606105819; 3250441966; 4118548399; 1200080426;
   2821735955; 4249261313; 1770035416; 2336552879; 4294925233; 2304563134;
   1804603682; 4254626195; 2792965006; 1236535329; 4129170786; 3225465664;
   643717713; 3921069994; 3593408605; 38016083; 3634488961; 3889429448;
   568446438; 3275163606; 4107603335; 1163531501; 2850285829; 4243563512;
   1735328473; 2368359562; 4294588738; 2272392833; 1839030562; 4259657740;
   2763975236; 1272893353; 4139469664; 3200236656; 681279174; 3936430074;
   3572445317; 76029189; 3654602809; 3873151461; 530742520; 3299628645;
   4096336452; 1126891415; 2878612391; 4237533241; 1700485571; 2399980690;
   4293915773; 2240044497; 1873313359; 4264355552; 2734768916; 1309151649;
   4149444226; 3174756917; 718787259; 3951481745].

Definition state : Type := (Z * Z * Z * Z)%type.

Definition init : state := (1732584193, 4023233417, 2562383102, 271733878).

(** The mixing function and the message-word index of operation [i]. *)
Definition mix (i : nat) (b c d : Z) : Z * nat :=
  if (i <? 16)%nat then
    (Z.lor (Z.land b c) (Z.land (not32 b) d), i)
  else if (i <? 32)%nat then
    (Z.lor (Z.land d b) (Z.land (not32 d) c), ((5 * i + 1) mod 16)%nat)
  else if (i <? 48)%nat then
    (Z.lxor (Z.lxor b c) d, ((3 * i + 5) mod 16)%nat)
  else
    (Z.lxor c (Z.lor b (not32 d)), ((7 * i) mod 16)%nat).

Definition step (M : list Z) (st : state) (i : nat) : state :=
  let '(a, b, c, d) := st in
  let '(f, g) := mix i b c d in
  let f' := w32 (f + a + nth i sines 0 + nth g M 0) in
  (d, w32 (b + rotl32 f' (nth i shifts 0)), b, c).

Definition compress (st : state) (M : list Z) : state :=
  let '(a0, b0, c0, d0) := st in
  let '(a, b, c, d) := fold_left (step M) (seq 0 64) st in
  (w32 (a0 + a), w32 (b0 + b), w32 (c0 + c), w32 (d0 + d)).

(** Little-endian bytes of a [n]-byte unsigned number. *)
Fixpoint le_bytes (n : nat) (x : Z) : list Z :=
  match n with
  | O => []
  | S n' => Z.land x 255 :: le_bytes n' (Z.shiftr x 8)
  end.

Fixpoint le_word (bs : list Z) : Z :=
  match bs with
  | [] => 0
  | b :: bs' => b + 256 * le_word bs'
  end.

(** The message followed by the bit [1], zeros up to 56 modulo 64 bytes,
    and the 64-bit length in bits. *)
Definition pad (msg : list Z) : list Z :=
  let len := length msg in
  let zeros := ((119 - len mod 64) mod 64)%nat in
  msg ++ 128 :: repeat 0 zeros ++ le_bytes 8 (8 * Z.of_nat len).

(** Cut a byte list into words of four bytes ([fuel] bounds the number of
    words). *)
Fixpoint words (fuel : nat) (bs : list Z) : list Z :=
  match fuel, bs with
  | S fuel', _ :: _ => le_word (firstn 4 bs) :: words fuel' (skipn 4 bs)
  | _, _ => []
  end.

Fixpoint blocks (fuel : nat) (ws : list Z) : list (list Z) :=
  match fuel, ws with
  | S fuel', _ :: _ => firstn 16 ws :: blocks fuel' (skipn 16 ws)
  | _, _ => []
  end.

Definition digest (msg : list Z) : list Z :=
  let bs := pad msg in
  let ws := words (length bs) bs in
  let '(a, b, c, d) := fold_left compress (blocks (length ws) ws) init in
  le_bytes 4 a ++ le_bytes 4 b ++ le_bytes 4 c ++ le_bytes 4 d.

Definition hex_digit (x : Z) : ascii :=
  match String.get (Z.to_nat x) "0123456789abcdef" with
  | Some c => c
  | None => "0"%char
  end.

Fixpoint hex (bs : list Z) : string :=
  match bs with
  | [] => EmptyString
  | b :: bs' =>
      String (hex_digit (Z.shiftr b 4)) (String (hex_digit (Z.land b 15)) (hex bs'))
  end.

Definition bytes_of_string (s : string) : list Z :=
  map (fun c => Z.of_N (N_of_ascii c)) (list_ascii_of_string s).

Definition hexdigest (s : string) : string := hex (digest (bytes_of_string s)).

End MD5.

(** ** Exceptions *)

Inductive exn : Set :=
| IndexError          (* a list index out of range *)
| ZeroDivisionError   (* [/] with a zero divisor *)
| ResolutionError.    (* raised by the analysis provider: no such string constant *)

Inductive result (A : Type) : Type :=
| OK (a : A)
| Raise (e : exn).
Arguments OK {A} a.
Arguments Raise {A} e.

#[global] Instance result_ret : MRet result := fun A a => OK a.
#[global] Instance result_bind : MBind result := fun A B f r =>
  match r with
  | OK a => f a
  | Raise e => Raise e
  end.

(** A [for] loop whose body may raise: the state is threaded through the
    elements in order and the first exception ends the loop. *)
Fixpoint for_each {A S : Type} (body : S -> A -> result S) (l : list A) (s : S)
  : result S :=
  match l with
  | [] => OK s
  | x :: l' => s' ← body s x; for_each body l' s'
  end.

(** ** Python numbers *)

(** [len(...)] and other non-negative [int]s, seen as numbers. *)
Definition of_int (n : nat) : Q := inject_Z (Z.of_nat n).

(** True division [a / b]. *)
Definition truediv (a b : Q) : result Q :=
  if Qeq_bool b 0 then Raise ZeroDivisionError else OK (a / b)%Q.

Definition Qltb (a b : Q) : bool := negb (Qle_bool b a).

(** [max(a, b)] and [min(a, b)]: the first argument is kept unless the
    second one is strictly better. *)
Definition py_max (a b : Q) : Q := if Qltb a b then b else a.
Definition py_min (a b : Q) : Q := if Qltb b a then b else a.

(** [max(iterable, default=d)]. *)
Definition py_max_default (xs : list Q) (d : Q) : Q :=
  match xs with
  | [] => d
  | x :: xs' => fold_left py_max xs' x
  end.

(** [sum(ints)]. *)
Definition py_sum (xs : list nat) : nat := fold_left Nat.add xs 0%nat.

(** [l[i]] for a non-negative [i]. *)
Definition getitem {A : Type} (l : list A) (i : nat) : result A :=
  match l !! i with
  | Some x => OK x
  | None => Raise IndexError
  end.

(** [str(n)] of a non-negative [int], as an f-string renders it. *)
Definition str_of_int (n : nat) : string := NilZero.string_of_uint (Nat.to_uint n).

(** ** The object model of the analysis provider

    Only the attributes [main.py] reads are kept. *)

Record instruction : Type := {
  (** [instruction.get_name()] *)
  get_name : string;
  (** Modelled from the spec: the outcome of the provider call
      [instruction.cm.vm.get_cm_string(instruction.get_ref_kind())], which
      is not code of the repository; the spec gives it as returning the
      string constant or failing with [ResolutionError] when the constant
      pool entry is missing. *)
  get_cm_string : result string
}.

Record basic_block : Type := {
  (** [block.get_instructions()] *)
  block_get_instructions : list instruction
}.

(** One element of [method.get_xref_to()]: the class, the called method
    (of which only [full_name] is read) and the offset. *)
Definition xref : Type := (string * string * nat)%type.

Record method : Type := {
  full_name : string;
  class_name : string;
  (** Modelled from the spec: the provider's [access] attribute, whose type
      is not declared in the repository; the spec gives it as the set of the
      method's modifier tags. *)
  access : gset string;
  get_xref_to : list xref;
  (** [method.get_basic_blocks().gets()] *)
  get_basic_blocks : list basic_block;
  (** truth value of [method.code] *)
  code : bool;
  (** [method.get_method().get_instructions()] *)
  get_instructions : list instruction;
  get_length : nat
}.

(** ** main.py *)

Definition get_method_signature (m : method) : string := full_name m.

Definition hash_feature (feature : string) : string := MD5.hexdigest feature.

Definition string_loads : list string := ["const-string"; "const-string/jumbo"].

(** Body of the loop over the instructions (lines 36-38). *)
Definition add_string_feature (features : gset string) (i : instruction)
  : result (gset string) :=
  if bool_decide (get_name i ∈ string_loads) then
    s ← get_cm_string i;
    OK ({[ hash_feature ("string:" ++ s) ]} ∪ features)
  else OK features.

Definition add_api_call (features : gset string) (x : xref) : gset string :=
  let '(_, call, _) := x in
  {[ hash_feature ("api_call:" ++ call) ]} ∪ features.

Definition add_block (features : gset string) (block : basic_block) : gset string :=
  let instruction_count := length (block_get_instructions block) in
  {[ hash_feature ("block:" ++ str_of_int instruction_count) ]} ∪ features.

Definition get_method_features (m : method) : result (gset string) :=
  let features : gset string := ∅ in
  let features := {[ hash_feature ("signature:" ++ full_name m) ]} ∪ features in
  let features := fold_left add_api_call (get_xref_to m) features in
  let features := fold_left add_block (get_basic_blocks m) features in
  if code m then for_each add_string_feature (get_instructions m) features
  else OK features.

Definition get_method_body (m : method) : string :=
  String.concat " " (map get_name (get_instructions m)).

Definition filter_method (m : method) : bool :=
  String.prefix "Lwisemate/ai" (class_name m) && bool_decide ("private" ∈ access m).

(** *** The five metrics of [compare_apk_code] *)

(** Lines 73-76. *)
Definition signature_similarity (internal_methods1 internal_methods2 : list method)
  : result Q :=
  let signatures1 : gset string := list_to_set (map get_method_signature internal_methods1) in
  let signatures2 : gset string := list_to_set (map get_method_signature internal_methods2) in
  let common_signatures := signatures1 ∩ signatures2 in
  truediv (of_int (size common_signatures))
          (of_int (Nat.max (size signatures1) (size signatures2))).

(** The generator expression of line 89, for one [features1]. *)
Definition jaccard (features1 features2 : gset string) : result Q :=
  truediv (of_int (size (features1 ∩ features2))) (of_int (size (features1 ∪ features2))).

(** Lines 89-91: one turn of the loop over [method_features1]. *)
Definition add_max_similarity (method_features2 : list (gset string))
    (total_similarity : Q) (features1 : gset string) : result Q :=
  sims ← mapM (jaccard features1) method_features2;
  let max_similarity := py_max_default sims 0 in
  OK (total_similarity + max_similarity)%Q.

(** Lines 87-93. *)
Definition avg_similarity (method_features1 method_features2 : list (gset string))
  : result Q :=
  total_similarity ← for_each (add_max_similarity method_features2) method_features1 0%Q;
  match method_features1 with
  | _ :: _ => truediv total_similarity (of_int (length method_features1))
  | [] => OK 0%Q
  end.

(** Lines 84-93: the feature sets of both lists, then their similarity. *)
Definition feature_similarity (internal_methods1 internal_methods2 : list method)
  : result Q :=
  method_features1 ← mapM get_method_features internal_methods1;
  method_features2 ← mapM get_method_features internal_methods2;
  avg_similarity method_features1 method_features2.

(** Lines 101-104. *)
Definition class_similarity (internal_methods1 internal_methods2 : list method)
  : result Q :=
  let classes1 : gset string := list_to_set (map class_name internal_methods1) in
  let classes2 : gset string := list_to_set (map class_name internal_methods2) in
  let common_classes := classes1 ∩ classes2 in
  truediv (of_int (size common_classes))
          (of_int (Nat.max (size classes1) (size classes2))).

(** [sum(xs) / len(xs) if xs else 0] (lines 114-115 and 126-127). *)
Definition average (xs : list nat) : result Q :=
  match xs with
  | _ :: _ => truediv (of_int (py_sum xs)) (of_int (length xs))
  | [] => OK 0%Q
  end.

(** [min(a, b) / max(a, b) if max(a, b) > 0 else 1] (lines 118 and 130). *)
Definition min_max_ratio (a b : Q) : result Q :=
  if Qltb 0 (py_max a b) then truediv (py_min a b) (py_max a b) else OK 1%Q.

(** Lines 112-119. *)
Definition length_similarity (internal_methods1 internal_methods2 : list method)
  : result Q :=
  let lengths1 := map get_length internal_methods1 in
  let lengths2 := map get_length internal_methods2 in
  avg_length1 ← average lengths1;
  avg_length2 ← average lengths2;
  min_max_ratio avg_length1 avg_length2.

(** Lines 124-131. *)
Definition bb_similarity (internal_methods1 internal_methods2 : list method)
  : result Q :=
  let bb_counts1 := map (fun m => length (get_basic_blocks m)) internal_methods1 in
  let bb_counts2 := map (fun m => length (get_basic_blocks m)) internal_methods2 in
  avg_bb1 ← average bb_counts1;
  avg_bb2 ← average bb_counts2;
  min_max_ratio avg_bb1 avg_bb2.

(** Lines 134-135. *)
Definition overall_similarity (signature feature class length bb : Q) : result Q :=
  truediv (signature + feature + class + length + bb)%Q 5%Q.

(** The numbers [compare_apk_code] reports. *)
Record report : Type := {
  rep_signature : Q;
  rep_feature : Q;
  rep_class : Q;
  rep_length : Q;
  rep_bb : Q;
  rep_overall : Q
}.

(** Lines 71-136: the metrics in the order the function computes them, on
    the two filtered method lists. *)
Definition metrics (internal_methods1 internal_methods2 : list method) : result report :=
  signature ← signature_similarity internal_methods1 internal_methods2;
  feature ← feature_similarity internal_methods1 internal_methods2;
  class ← class_similarity internal_methods1 internal_methods2;
  length ← length_similarity internal_methods1 internal_methods2;
  bb ← bb_similarity internal_methods1 internal_methods2;
  overall ← overall_similarity signature feature class length bb;
  OK {| rep_signature := signature; rep_feature := feature; rep_class := class;
        rep_length := length; rep_bb := bb; rep_overall := overall |}.

Definition show_index : nat := 64.

(** What lines 66-69 print about one method. *)
Definition preview : Type := (string * string * gset string * string)%type.

(** [compare_apk_code], from the two provider results
    [dx.get_internal_methods()] on: the filter (lines 62-63), the preview of
    method number [show_index] of the first list (lines 65-69), then the
    metrics. *)
Definition compare_apk_code (dx1 dx2 : list method) : result (preview * report) :=
  let internal_methods1 := List.filter filter_method dx1 in
  let internal_methods2 := List.filter filter_method dx2 in
  shown ← getitem internal_methods1 show_index;
  let shown_preview :=
    (class_name shown, get_method_signature shown, access shown, get_method_body shown) in
  scores ← metrics internal_methods1 internal_methods2;
  OK (shown_preview, scores).

(** ** What the specification says, in its own words

    These definitions follow the text of the specification, not the code;
    the theorems below compare them with the functions above. *)

(** Number of distinct names of [names1] that also occur in [names2],
    over the larger of the two numbers of distinct names. *)
Definition spec_set_similarity (names1 names2 : list string) : Q :=
  (of_int (length (filter (fun x => x ∈ names2) (remove_dups names1)))
   / of_int (Nat.max (length (remove_dups names1)) (length (remove_dups names2))))%Q.

(** Jaccard similarity, taken to be 0 when the union is empty. *)
Definition spec_jaccard (F1 F2 : gset string) : Q :=
  if decide (F1 ∪ F2 = ∅) then 0%Q
  else (of_int (size (F1 ∩ F2)) / of_int (size (F1 ∪ F2)))%Q.

(** Best match of one feature set in a list: the largest Jaccard
    similarity, 0 for the empty list. *)
Definition spec_best_match (F1 : gset string) (list2 : list (gset string)) : Q :=
  fold_right Qmax 0%Q (map (spec_jaccard F1) list2).

(** Arithmetic mean of a list of numbers, 0 for the empty list. *)
Definition spec_mean (xs : list Q) : Q :=
  match xs with
  | [] => 0%Q
  | _ => (fold_right Qplus 0 xs / of_int (length xs))%Q
  end.

Definition spec_feature_similarity (list1 list2 : list (gset string)) : Q :=
  spec_mean (map (fun F1 => spec_best_match F1 list2) list1).

(** The min/max ratio of two averages, 1 when both are 0. *)
Definition spec_ratio (avg1 avg2 : Q) : Q :=
  if Qeq_bool avg1 0 && Qeq_bool avg2 0 then 1%Q
  else (Qmin avg1 avg2 / Qmax avg1 avg2)%Q.

(** ** Auxiliary definitions *)

(** Equality of two outcomes: the same exception, or equal numbers. *)
Definition result_eq (r1 r2 : result Q) : Prop :=
  match r1, r2 with
  | OK a, OK b => (a == b)%Q
  | Raise e1, Raise e2 => e1 = e2
  | _, _ => False
  end.

(** Both metrics are the same computation on a different attribute. *)
Definition name_similarity (attr : method -> string) (ms1 ms2 : list method) : result Q :=
  let names1 : gset string := list_to_set (map attr ms1) in
  let names2 : gset string := list_to_set (map attr ms2) in
  truediv (of_int (size (names1 ∩ names2)))
          (of_int (Nat.max (size names1) (size names2))).

(** Lines 112-119 and 124-131 are one computation on two attributes. *)
Definition ratio_similarity (attr : method -> nat) (ms1 ms2 : list method) : result Q :=
  avg1 ← average (map attr ms1);
  avg2 ← average (map attr ms2);
  min_max_ratio avg1 avg2.

(** The tokens of the feature extractor. *)
Definition signature_token (m : method) : string :=
  hash_feature ("signature:" ++ full_name m).

Definition string_token (s : string) : string := hash_feature ("string:" ++ s).

(** [i] is one of the two string-load instructions. *)
Definition string_load (i : instruction) : bool :=
  bool_decide (get_name i ∈ string_loads).

(** The provider resolves the constant of [i] whenever [i] is a string load. *)
Definition load_resolves (i : instruction) : bool :=
  negb (string_load i) || match get_cm_string i with OK _ => true | Raise _ => false end.

(** Every string load that [get_method_features] meets in [m] resolves. *)
Definition resolves (m : method) : bool :=
  negb (code m) || forallb load_resolves (get_instructions m).

(** The tokens of a cross-reference and of a basic block. *)
Definition api_call_token (x : xref) : string :=
  hash_feature ("api_call:" ++ snd (fst x)).

Definition block_token (b : basic_block) : string :=
  hash_feature ("block:" ++ str_of_int (length (block_get_instructions b))).

(** The constants of the string loads of an instruction list, in order,
    as far as the provider returns them. *)
Definition loaded_strings (ins : list instruction) : list string :=
  flat_map (fun i =>
              if string_load i
              then match get_cm_string i with OK s => [s] | Raise _ => [] end
              else []) ins.

(** The feature set of a method, one token family after the other. *)
Definition feature_set (m : method) : gset string :=
  {[ signature_token m ]}
  ∪ list_to_set (map api_call_token (get_xref_to m))
  ∪ list_to_set (map block_token (get_basic_blocks m))
  ∪ (if code m
     then list_to_set (map string_token (loaded_strings (get_instructions m)))
     else ∅).

(** Number of tokens extracted from [m]. *)
Definition feature_count (m : method) : result nat :=
  features ← get_method_features m; OK (size features).

(** ** Sample inputs *)

(** A private method of the compared package with no cross-reference, no
    basic block and no code. *)
Definition bare (name : string) : method :=
  {| full_name := "Lwisemate/ai/Core; " ++ name ++ " ()V";
     class_name := "Lwisemate/ai/Core;";
     access := {[ "private" ]};
     get_xref_to := [];
     get_basic_blocks := [];
     code := false;
     get_instructions := [];
     get_length := 0 |}.

Definition const_string (s : string) : instruction :=
  {| get_name := "const-string"; get_cm_string := OK s |}.

Definition dangling_const_string : instruction :=
  {| get_name := "const-string"; get_cm_string := Raise ResolutionError |}.

(** An instruction that is not a string load: it refers to no string
    constant, and [get_method_features] never looks one up for it. *)
Definition plain (name : string) : instruction :=
  {| get_name := name; get_cm_string := Raise ResolutionError |}.

(** A private method with two blocks, one call and the given instructions. *)
Definition with_code (name : string) (body : list instruction) : method :=
  {| full_name := "Lwisemate/ai/Chat; " ++ name ++ " ()V";
     class_name := "Lwisemate/ai/Chat;";
     access := {[ "private"; "final" ]};
     get_xref_to := [("Ljava/lang/String;", "Ljava/lang/String; length ()I", 4)];
     get_basic_blocks :=
       [ {| block_get_instructions := firstn 2 body |};
         {| block_get_instructions := skipn 2 body |} ];
     code := true;
     get_instructions := body;
     get_length := 2 * length body |}.

Definition greet : method :=
  with_code "greet" [const_string "hello"; plain "invoke-virtual"; plain "return-void"].

(** [greet] with one more string load, whose constant does not resolve. *)
Definition greet_dangling : method :=
  with_code "greet"
    [const_string "hello"; dangling_const_string; plain "invoke-virtual"; plain "return-void"].

Definition one_method : list method := [bare "a"].
Definition three_methods : list method := [bare "a"; bare "b"; bare "c"].

(** Two methods that differ in the order, the repetition, the classes and
    the offsets of their cross-references and in the order and repetition of
    their basic-block sizes. *)
Definition caller_a : method :=
  {| full_name := "Lwisemate/ai/Net; send ()V";
     class_name := "Lwisemate/ai/Net;";
     access := {[ "private" ]};
     get_xref_to := [("Ljava/net/URL;", "Ljava/net/URL; open ()V", 2);
                     ("Ljava/io/File;", "Ljava/io/File; close ()V", 9)];
     get_basic_blocks :=
       [ {| block_get_instructions := [plain "invoke-direct"; plain "goto"] |};
         {| block_get_instructions := [plain "return-void"] |} ];
     code := true;
     get_instructions := [plain "invoke-direct"; plain "goto"; plain "return-void"];
     get_length := 6 |}.

Definition caller_b : method :=
  {| full_name := "Lwisemate/ai/Net; send ()V";
     class_name := "Lwisemate/ai/Net;";
     access := {[ "private" ]};
     get_xref_to := [("Ljava/io/File;", "Ljava/io/File; close ()V", 30);
                     ("Lx/Y;", "Ljava/net/URL; open ()V", 1);
                     ("Ljava/io/File;", "Ljava/io/File; close ()V", 31)];
     get_basic_blocks :=
       [ {| block_get_instructions := [plain "nop"] |};
         {| block_get_instructions := [plain "nop"; plain "nop"] |};
         {| block_get_instructions := [plain "const/4"] |} ];
     code := true;
     get_instructions := [plain "invoke-direct"; plain "goto"; plain "return-void"];
     get_length := 8 |}.

(** A public method of the compared package and a private method of
    another package. *)
Definition public_method : method :=
  {| full_name := "Lwisemate/ai/Core; main ()V";
     class_name := "Lwisemate/ai/Core;";
     access := {[ "public"; "static" ]};
     get_xref_to := [];
     get_basic_blocks := [];
     code := false;
     get_instructions := [];
     get_length := 12 |}.

Definition foreign_method : method :=
  {| full_name := "Lokhttp3/Call; run ()V";
     class_name := "Lokhttp3/Call;";
     access := {[ "private" ]};
     get_xref_to := [];
     get_basic_blocks := [];
     code := false;
     get_instructions := [];
     get_length := 40 |}.

(** 65 distinct methods: enough for the preview of method 64. *)
Definition many_methods : list method :=
  map (fun n => bare ("m" ++ str_of_int n)) (seq 0 65).

(** * Properties *)

(** ** The digest on known inputs *)

Example md5_empty : MD5.hexdigest "" = "d41d8cd98f00b204e9800998ecf8427e".
Proof. vm_compute. reflexivity. Qed.

Example md5_abc : MD5.hexdigest "abc" = "900150983cd24fb0d6963f7d28e17f72".
Proof. vm_compute. reflexivity. Qed.

Example md5_signature :
  MD5.hexdigest "signature:Lwisemate/ai/A; run ()V" = "f01a261458dcca38165f6813d8a335bf".
Proof. vm_compute. reflexivity. Qed.

Example md5_two_blocks :
  MD5.hexdigest (String.concat "" (repeat "x" 100)) = "aed563ecafb4bcc5654c597a421547b2".
Proof. vm_compute. reflexivity. Qed.

(** ** Numbers *)

Section Numbers.
Local Open Scope Q_scope.

Lemma of_int_nonneg (n : nat) : 0 <= of_int n.
Proof. unfold of_int. rewrite <- (Zle_Qle 0). lia. Qed.

Lemma of_int_le (n m : nat) : (n <= m)%nat -> of_int n <= of_int m.
Proof. intros H. unfold of_int. rewrite <- Zle_Qle. lia. Qed.

Lemma of_int_pos (n : nat) : (0 < n)%nat -> 0 < of_int n.
Proof. intros H. unfold of_int. rewrite <- (Zlt_Qlt 0). lia. Qed.

Lemma of_int_zero_iff (n : nat) : of_int n == 0 <-> n = 0%nat.
Proof.
  unfold of_int. split.
  - unfold Qeq. simpl. lia.
  - intros ->. reflexivity.
Qed.

Lemma of_int_plus (n m : nat) : of_int (n + m) == of_int n + of_int m.
Proof. unfold of_int. rewrite Nat2Z.inj_add, inject_Z_plus. reflexivity. Qed.

Lemma truediv_nonzero (a b : Q) : ~ b == 0 -> truediv a b = OK (a / b).
Proof.
  intros H. unfold truediv. destruct (Qeq_bool b 0) eqn:E; [|reflexivity].
  apply Qeq_bool_eq in E. contradiction.
Qed.

Lemma truediv_zero (a b : Q) : b == 0 -> truediv a b = Raise ZeroDivisionError.
Proof. intros H. unfold truediv. rewrite (Qeq_eq_bool _ _ H). reflexivity. Qed.

Lemma truediv_OK_inv (a b v : Q) : truediv a b = OK v -> ~ b == 0 /\ v = a / b.
Proof.
  unfold truediv. destruct (Qeq_bool b 0) eqn:E; [discriminate|].
  intros [= <-]. split; [|reflexivity]. now apply Qeq_bool_neq.
Qed.

Lemma Qltb_lt (a b : Q) : Qltb a b = true <-> a < b.
Proof.
  unfold Qltb. rewrite negb_true_iff. split.
  - intros H. apply Qnot_le_lt. intros Hle.
    apply Qle_bool_iff in Hle. congruence.
  - intros H. destruct (Qle_bool b a) eqn:E; [|reflexivity].
    apply Qle_bool_iff in E. exfalso. exact (Qlt_not_le _ _ H E).
Qed.

Lemma Qltb_ge (a b : Q) : Qltb a b = false <-> b <= a.
Proof.
  unfold Qltb. rewrite negb_false_iff. apply Qle_bool_iff.
Qed.

Lemma py_max_Qmax (a b : Q) : py_max a b == Qmax a b.
Proof.
  unfold py_max. destruct (Qltb a b) eqn:E.
  - apply Qltb_lt in E. symmetry. apply Q.max_r. now apply Qlt_le_weak.
  - apply Qltb_ge in E. symmetry. now apply Q.max_l.
Qed.

Lemma py_min_Qmin (a b : Q) : py_min a b == Qmin a b.
Proof.
  unfold py_min. destruct (Qltb b a) eqn:E.
  - apply Qltb_lt in E. symmetry. apply Q.min_r. now apply Qlt_le_weak.
  - apply Qltb_ge in E. symmetry. now apply Q.min_l.
Qed.

Lemma py_max_comm (a b : Q) : py_max a b == py_max b a.
Proof. rewrite !py_max_Qmax. apply Q.max_comm. Qed.

Lemma py_min_comm (a b : Q) : py_min a b == py_min b a.
Proof. rewrite !py_min_Qmin. apply Q.min_comm. Qed.

(** A quotient of a smaller non-negative number by a larger positive one. *)
Lemma quotient_bounds (a b : Q) : 0 <= a -> a <= b -> 0 < b -> 0 <= a / b <= 1.
Proof.
  intros Ha Hab Hb. split.
  - apply Qle_shift_div_l; [assumption|]. lra.
  - apply Qle_shift_div_r; [assumption|]. lra.
Qed.

Lemma quotient_self (a : Q) : ~ a == 0 -> a / a == 1.
Proof. intros H. field. assumption. Qed.

End Numbers.

(** ** Exceptions and loops *)

Lemma bind_OK {A B : Type} (a : A) (k : A -> result B) : OK a ≫= k = k a.
Proof. reflexivity. Qed.

Lemma bind_Raise {A B : Type} (e : exn) (k : A -> result B) : Raise e ≫= k = Raise e.
Proof. reflexivity. Qed.

Lemma bind_OK_inv {A B : Type} (r : result A) (k : A -> result B) (b : B) :
  r ≫= k = OK b -> exists a, r = OK a /\ k a = OK b.
Proof. destruct r as [a|e]; simpl; [eauto|discriminate]. Qed.

Lemma mapM_OK_Forall2 {A B : Type} (f : A -> result B) (l : list A) (k : list B) :
  mapM f l = OK k <-> Forall2 (fun x y => f x = OK y) l k.
Proof.
  revert k. induction l as [|x l IH]; intros k; simpl.
  - split.
    + intros [= <-]. constructor.
    + intros H. inversion H. reflexivity.
  - split.
    + intros H. apply bind_OK_inv in H as (y & Hy & H).
      apply bind_OK_inv in H as (k' & Hk' & H). injection H as <-.
      constructor; [assumption|]. now apply IH.
    + intros H. inversion H as [|? y ? k' Hy Hk']; subst.
      rewrite Hy. simpl. apply IH in Hk'. rewrite Hk'. reflexivity.
Qed.

Lemma mapM_OK_length {A B : Type} (f : A -> result B) (l : list A) (k : list B) :
  mapM f l = OK k -> length k = length l.
Proof.
  rewrite mapM_OK_Forall2. intros H. symmetry. exact (Forall2_length _ _ _ H).
Qed.

Lemma mapM_total {A B : Type} (f : A -> result B) (l : list A) :
  Forall (fun x => exists y, f x = OK y) l -> exists k, mapM f l = OK k.
Proof.
  induction 1 as [|x l [y Hy] _ [k Hk]]; simpl.
  - eexists. reflexivity.
  - rewrite Hy. simpl. rewrite Hk. simpl. eexists. reflexivity.
Qed.

Lemma truediv_proper (a a' b b' : Q) :
  (a == a')%Q -> (b == b')%Q -> result_eq (truediv a b) (truediv a' b').
Proof.
  intros Ha Hb. unfold truediv. rewrite (Qeqb_comp _ _ Hb _ _ (Qeq_refl 0)).
  destruct (Qeq_bool b' 0); simpl; [reflexivity|]. now rewrite Ha, Hb.
Qed.

(** ** Sets of names *)

Section Names.
Implicit Types l : list string.

Lemma size_list_to_set_distinct l :
  size (list_to_set l : gset string) = length (remove_dups l).
Proof.
  rewrite <- (size_list_to_set (C:=gset string) (remove_dups l))
    by apply NoDup_remove_dups.
  f_equal. apply set_eq. intros x.
  rewrite !elem_of_list_to_set, elem_of_remove_dups. reflexivity.
Qed.

Lemma size_common_distinct l1 l2 :
  size ((list_to_set l1 : gset string) ∩ list_to_set l2)
  = length (filter (fun x => x ∈ l2) (remove_dups l1)).
Proof.
  rewrite <- (size_list_to_set (C:=gset string)).
  - f_equal. apply set_eq. intros x.
    rewrite elem_of_intersection, !elem_of_list_to_set, list_elem_of_filter,
      elem_of_remove_dups.
    tauto.
  - apply NoDup_filter, NoDup_remove_dups.
Qed.

Lemma size_list_to_set_pos l : l <> [] -> 0 < size (list_to_set l : gset string).
Proof.
  destruct l as [|x l]; [congruence|]. intros _.
  assert (size (list_to_set (x :: l) : gset string) <> 0); [|lia].
  apply size_non_empty_iff. simpl. set_solver.
Qed.

Lemma size_common_le (X Y : gset string) : size (X ∩ Y) <= Nat.max (size X) (size Y).
Proof.
  transitivity (size X); [|lia].
  apply subseteq_size, intersection_subseteq_l.
Qed.

End Names.

(** ** Signature and class similarity *)

Lemma signature_similarity_names ms1 ms2 :
  signature_similarity ms1 ms2 = name_similarity get_method_signature ms1 ms2.
Proof. reflexivity. Qed.

Lemma class_similarity_names ms1 ms2 :
  class_similarity ms1 ms2 = name_similarity class_name ms1 ms2.
Proof. reflexivity. Qed.

Lemma name_similarity_spec attr ms1 ms2 :
  ms1 <> [] \/ ms2 <> [] ->
  name_similarity attr ms1 ms2 = OK (spec_set_similarity (map attr ms1) (map attr ms2)).
Proof.
  intros Hne. unfold name_similarity, spec_set_similarity.
  rewrite size_common_distinct, !size_list_to_set_distinct.
  apply truediv_nonzero. rewrite of_int_zero_iff.
  rewrite <- !size_list_to_set_distinct.
  assert (0 < size (list_to_set (map attr ms1) : gset string)
          \/ 0 < size (list_to_set (map attr ms2) : gset string)) as H.
  { destruct Hne as [H|H]; [left|right]; apply size_list_to_set_pos;
      intros E; apply map_eq_nil in E; contradiction. }
  lia.
Qed.

Lemma name_similarity_empty attr :
  name_similarity attr [] [] = Raise ZeroDivisionError.
Proof. reflexivity. Qed.

Lemma name_similarity_bounds attr ms1 ms2 v :
  name_similarity attr ms1 ms2 = OK v -> (0 <= v <= 1)%Q.
Proof.
  unfold name_similarity. intros H. apply truediv_OK_inv in H as [Hnz ->].
  apply quotient_bounds.
  - apply of_int_nonneg.
  - apply of_int_le, size_common_le.
  - rewrite of_int_zero_iff in Hnz. apply of_int_pos. lia.
Qed.

Lemma name_similarity_sym attr ms1 ms2 :
  name_similarity attr ms1 ms2 = name_similarity attr ms2 ms1.
Proof.
  unfold name_similarity.
  rewrite (intersection_comm_L (list_to_set (map attr ms1) : gset string)).
  rewrite Nat.max_comm. reflexivity.
Qed.

Lemma name_similarity_self attr ms :
  ms <> [] -> exists v, name_similarity attr ms ms = OK v /\ (v == 1)%Q.
Proof.
  intros Hne. unfold name_similarity.
  rewrite intersection_idemp_L, Nat.max_id.
  assert (~ (of_int (size (list_to_set (map attr ms) : gset string)) == 0)%Q) as Hnz.
  { rewrite of_int_zero_iff.
    assert (0 < size (list_to_set (map attr ms) : gset string)); [|lia].
    apply size_list_to_set_pos. intros E. apply map_eq_nil in E. contradiction. }
  rewrite (truediv_nonzero _ _ Hnz). eexists. split; [reflexivity|].
  now apply quotient_self.
Qed.

(** ** Averages and the min/max ratio *)

Section Ratio.
Local Open Scope Q_scope.

Lemma fold_left_add_shift (xs : list nat) (n : nat) :
  fold_left Nat.add xs n = (n + fold_left Nat.add xs 0)%nat.
Proof.
  revert n. induction xs as [|x xs IH]; intros n; simpl; [lia|].
  rewrite (IH (n + x)%nat), (IH x). lia.
Qed.

Lemma py_sum_cons (x : nat) (xs : list nat) : py_sum (x :: xs) = (x + py_sum xs)%nat.
Proof. unfold py_sum. simpl. apply fold_left_add_shift. Qed.

Lemma of_int_py_sum (xs : list nat) :
  of_int (py_sum xs) == fold_right Qplus 0 (map of_int xs).
Proof.
  induction xs as [|x xs IH]; [reflexivity|].
  rewrite py_sum_cons, of_int_plus, IH. reflexivity.
Qed.

Lemma average_spec (xs : list nat) :
  exists a, average xs = OK a /\ 0 <= a /\ a == spec_mean (map of_int xs).
Proof.
  destruct xs as [|x xs]; [exists 0; repeat split; reflexivity || lra|].
  assert (spec_mean (map of_int (x :: xs))
          = fold_right Qplus 0 (map of_int (x :: xs)) / of_int (length (x :: xs))) as ->.
  { unfold spec_mean. simpl. rewrite length_map. reflexivity. }
  unfold average.
  assert (0 < of_int (length (x :: xs))) as Hpos by (apply of_int_pos; simpl; lia).
  rewrite truediv_nonzero by lra.
  eexists. split; [reflexivity|]. split.
  - apply Qle_shift_div_l; [assumption|]. rewrite Qmult_0_l. apply of_int_nonneg.
  - rewrite <- of_int_py_sum. reflexivity.
Qed.

Lemma py_max_pos_iff (a b : Q) :
  0 <= a -> 0 <= b -> (Qltb 0 (py_max a b) = false <-> a == 0 /\ b == 0).
Proof.
  intros Ha Hb. rewrite Qltb_ge. unfold py_max.
  destruct (Qltb a b) eqn:E.
  - apply Qltb_lt in E. split; [intros H|intros [H1 H2]]; [split|]; lra.
  - apply Qltb_ge in E. split; [intros H|intros [H1 H2]]; [split|]; lra.
Qed.

Lemma both_zero_iff (a b : Q) :
  Qeq_bool a 0 && Qeq_bool b 0 = true <-> a == 0 /\ b == 0.
Proof. rewrite andb_true_iff, !Qeq_bool_iff. reflexivity. Qed.

Lemma spec_ratio_proper (a a' b b' : Q) :
  a == a' -> b == b' -> spec_ratio a b == spec_ratio a' b'.
Proof.
  intros Ha Hb. unfold spec_ratio.
  rewrite (Qeqb_comp _ _ Ha _ _ (Qeq_refl 0)), (Qeqb_comp _ _ Hb _ _ (Qeq_refl 0)).
  destruct (Qeq_bool a' 0 && Qeq_bool b' 0); [reflexivity|].
  rewrite Ha, Hb. reflexivity.
Qed.

Lemma min_max_ratio_spec (a b : Q) :
  0 <= a -> 0 <= b ->
  exists v, min_max_ratio a b = OK v /\ v == spec_ratio a b /\ 0 <= v <= 1.
Proof.
  intros Ha Hb. unfold min_max_ratio, spec_ratio.
  destruct (Qltb 0 (py_max a b)) eqn:E.
  - assert (0 < py_max a b) as Hpos by now apply Qltb_lt.
    rewrite truediv_nonzero by lra.
    destruct (Qeq_bool a 0 && Qeq_bool b 0) eqn:Z.
    + apply both_zero_iff, py_max_pos_iff in Z; [congruence|assumption..].
    + eexists. split; [reflexivity|]. split.
      * rewrite py_min_Qmin, py_max_Qmax. reflexivity.
      * apply quotient_bounds; [| |assumption].
        -- rewrite py_min_Qmin. apply Q.min_glb; assumption.
        -- rewrite py_min_Qmin, py_max_Qmax.
           apply (Qle_trans _ a); [apply Q.le_min_l|apply Q.le_max_l].
  - apply py_max_pos_iff in E; [|assumption..].
    apply both_zero_iff in E. rewrite E.
    exists 1. repeat split; reflexivity || lra.
Qed.

Lemma min_max_ratio_sym (a b : Q) :
  result_eq (min_max_ratio a b) (min_max_ratio b a).
Proof.
  unfold min_max_ratio.
  assert (Qltb 0 (py_max a b) = Qltb 0 (py_max b a)) as ->.
  { unfold Qltb. f_equal. apply Qleb_comp; [apply py_max_comm|reflexivity]. }
  destruct (Qltb 0 (py_max b a)); [|simpl; reflexivity].
  apply truediv_proper; [apply py_min_comm|apply py_max_comm].
Qed.

Lemma min_max_ratio_self (a : Q) :
  exists v, min_max_ratio a a = OK v /\ v == 1.
Proof.
  unfold min_max_ratio.
  assert (py_max a a = a) as -> by (unfold py_max; destruct (Qltb a a); reflexivity).
  assert (py_min a a = a) as -> by (unfold py_min; destruct (Qltb a a); reflexivity).
  destruct (Qltb 0 a) eqn:E.
  - apply Qltb_lt in E. rewrite truediv_nonzero by lra.
    eexists. split; [reflexivity|]. apply quotient_self. lra.
  - exists 1. split; reflexivity.
Qed.

Lemma ratio_similarity_spec attr ms1 ms2 :
  exists v, ratio_similarity attr ms1 ms2 = OK v
    /\ v == spec_ratio (spec_mean (map of_int (map attr ms1)))
                       (spec_mean (map of_int (map attr ms2)))
    /\ 0 <= v <= 1.
Proof.
  unfold ratio_similarity.
  destruct (average_spec (map attr ms1)) as (a1 & -> & Ha1 & E1).
  destruct (average_spec (map attr ms2)) as (a2 & -> & Ha2 & E2).
  simpl. destruct (min_max_ratio_spec a1 a2 Ha1 Ha2) as (v & Hv & Ev & Hb).
  exists v. split; [assumption|]. split; [|assumption].
  rewrite Ev. now apply spec_ratio_proper.
Qed.

Lemma ratio_similarity_sym attr ms1 ms2 :
  result_eq (ratio_similarity attr ms1 ms2) (ratio_similarity attr ms2 ms1).
Proof.
  unfold ratio_similarity.
  destruct (average_spec (map attr ms1)) as (a1 & -> & _).
  destruct (average_spec (map attr ms2)) as (a2 & -> & _).
  simpl. apply min_max_ratio_sym.
Qed.

Lemma ratio_similarity_self attr ms :
  exists v, ratio_similarity attr ms ms = OK v /\ v == 1.
Proof.
  unfold ratio_similarity.
  destruct (average_spec (map attr ms)) as (a & -> & _).
  simpl. apply min_max_ratio_self.
Qed.

End Ratio.

(** ** Feature extraction *)

Section Extraction.
Implicit Types (features : gset string) (m : method).

Lemma fold_add_api_call_mono (xs : list xref) features :
  features ⊆ fold_left add_api_call xs features.
Proof.
  revert features. induction xs as [|[[c call] o] xs IH]; intros features;
    cbn [fold_left].
  - reflexivity.
  - etransitivity; [|apply IH]. unfold add_api_call. apply union_subseteq_r.
Qed.

Lemma fold_add_block_mono (bs : list basic_block) features :
  features ⊆ fold_left add_block bs features.
Proof.
  revert features. induction bs as [|b bs IH]; intros features; cbn [fold_left].
  - reflexivity.
  - etransitivity; [|apply IH]. unfold add_block. apply union_subseteq_r.
Qed.

Lemma add_string_feature_OK features i features' :
  add_string_feature features i = OK features' ->
  features ⊆ features'
  /\ (get_name i ∈ string_loads ->
      exists s, get_cm_string i = OK s /\ string_token s ∈ features').
Proof.
  unfold add_string_feature. case_bool_decide as Hname.
  - destruct (get_cm_string i) as [s|e]; simpl; [|discriminate].
    intros [= <-]. split; [apply union_subseteq_r|].
    intros _. exists s. split; [reflexivity|]. unfold string_token.
    apply elem_of_union_l, elem_of_singleton. reflexivity.
  - intros [= <-]. split; [reflexivity|]. intros H. contradiction.
Qed.

(** When the loop over the instructions ends normally, every string load
    has been resolved and its token is in the set. *)
Lemma for_each_add_string_OK (ins : list instruction) features features' :
  for_each add_string_feature ins features = OK features' ->
  features ⊆ features'
  /\ Forall (fun i => get_name i ∈ string_loads ->
                      exists s, get_cm_string i = OK s /\ string_token s ∈ features') ins.
Proof.
  revert features. induction ins as [|i ins IH]; intros features; simpl.
  - intros [= <-]. split; [reflexivity|constructor].
  - intros H. apply bind_OK_inv in H as (f1 & H1 & H).
    apply add_string_feature_OK in H1 as [Hsub Hi].
    apply IH in H as [Hsub' Hall]. split.
    + etransitivity; eassumption.
    + constructor; [|assumption].
      intros Hname. destruct (Hi Hname) as (s & Hs & Hin).
      exists s. split; [assumption|]. now apply Hsub'.
Qed.

Lemma add_string_feature_total features i :
  (get_name i ∈ string_loads -> exists s, get_cm_string i = OK s) ->
  exists features', add_string_feature features i = OK features'.
Proof.
  intros Hi. unfold add_string_feature.
  destruct (bool_decide (get_name i ∈ string_loads)) eqn:Hname.
  - apply bool_decide_eq_true in Hname. destruct (Hi Hname) as [s ->].
    eexists. reflexivity.
  - eexists. reflexivity.
Qed.

Lemma for_each_add_string_total (ins : list instruction) features :
  Forall (fun i => get_name i ∈ string_loads -> exists s, get_cm_string i = OK s) ins ->
  exists features', for_each add_string_feature ins features = OK features'.
Proof.
  intros H. revert features.
  induction H as [|i ins Hi _ IH]; intros features; cbn [for_each].
  - eexists. reflexivity.
  - destruct (add_string_feature_total features i Hi) as [f1 ->].
    rewrite bind_OK. apply IH.
Qed.

(** A string load that fails ends the loop with an exception. *)
Lemma for_each_add_string_raises (ins : list instruction) features :
  Exists (fun i => get_name i ∈ string_loads /\ exists e, get_cm_string i = Raise e) ins ->
  exists i e, i ∈ ins /\ get_name i ∈ string_loads /\ get_cm_string i = Raise e
              /\ for_each add_string_feature ins features = Raise e.
Proof.
  intros H. revert features.
  induction H as [i ins (Hname & e & He)|i ins _ IH]; intros features;
    cbn [for_each].
  - exists i, e. split; [left|]. split; [assumption|]. split; [assumption|].
    unfold add_string_feature. rewrite bool_decide_true by assumption.
    rewrite He. reflexivity.
  - destruct (add_string_feature features i) as [f1|e1] eqn:E1.
    + rewrite bind_OK.
      destruct (IH f1) as (i' & e & Hin & Hname & He & Hraise).
      exists i', e. split; [now right|]. auto.
    + rewrite bind_Raise.
      unfold add_string_feature in E1.
      destruct (bool_decide (get_name i ∈ string_loads)) eqn:Hname; [|discriminate].
      apply bool_decide_eq_true in Hname.
      destruct (get_cm_string i) as [s|e] eqn:He; [discriminate|].
      injection E1 as <-.
      exists i, e. split; [left|]. auto.
Qed.

Lemma get_method_features_signature m features :
  get_method_features m = OK features -> signature_token m ∈ features.
Proof.
  unfold get_method_features, signature_token.
  set (f0 := ({[ hash_feature ("signature:" ++ full_name m) ]} ∪ ∅ : gset string)).
  set (f2 := fold_left add_block _ _).
  assert (f0 ⊆ f2) as Hsub.
  { unfold f2. etransitivity; [apply fold_add_api_call_mono|apply fold_add_block_mono]. }
  assert (hash_feature ("signature:" ++ full_name m) ∈ f0) as Hin by (unfold f0; set_solver).
  destruct (code m).
  - intros H. apply for_each_add_string_OK in H as [Hsub' _]. auto.
  - intros [= <-]. auto.
Qed.

Lemma get_method_features_nonempty m features :
  get_method_features m = OK features -> features <> ∅.
Proof.
  intros H E. apply get_method_features_signature in H. rewrite E in H.
  now apply not_elem_of_empty in H.
Qed.

Lemma get_method_features_degenerate m :
  get_xref_to m = [] -> get_basic_blocks m = [] -> get_instructions m = [] ->
  get_method_features m = OK {[ signature_token m ]}.
Proof.
  intros Hx Hb Hi. unfold get_method_features, signature_token.
  rewrite Hx, Hb, Hi. cbn [fold_left for_each].
  rewrite (right_id_L ∅ (∪)). now destruct (code m).
Qed.

Lemma load_resolves_spec (ins : list instruction) :
  forallb load_resolves ins = true ->
  Forall (fun i => get_name i ∈ string_loads -> exists s, get_cm_string i = OK s) ins.
Proof.
  intros H. apply List.Forall_forall. intros i Hi Hname.
  rewrite forallb_forall in H. specialize (H i Hi).
  unfold load_resolves, string_load in H.
  rewrite bool_decide_true in H by assumption.
  destruct (get_cm_string i) as [s|e]; [eauto|discriminate].
Qed.

Lemma get_method_features_total m :
  resolves m = true -> exists features, get_method_features m = OK features.
Proof.
  unfold resolves, get_method_features. intros H.
  destruct (code m); [|eexists; reflexivity].
  apply for_each_add_string_total, load_resolves_spec, H.
Qed.

Lemma method_features_total (ms : list method) :
  forallb resolves ms = true ->
  exists fs, mapM get_method_features ms = OK fs /\ Forall (fun f => f <> ∅) fs.
Proof.
  intros H.
  destruct (mapM_total get_method_features ms) as [fs Hfs].
  { apply List.Forall_forall. intros m Hm. rewrite forallb_forall in H.
    apply get_method_features_total, H, Hm. }
  exists fs. split; [assumption|].
  apply mapM_OK_Forall2 in Hfs. clear H.
  induction Hfs as [|m f ms fs Hm _ IH]; constructor; [|assumption].
  eapply get_method_features_nonempty; eassumption.
Qed.

End Extraction.

(** ** Best-match feature similarity *)

Section BestMatch.
Local Open Scope Q_scope.
Implicit Types (F : gset string) (fs : list (gset string)).

Lemma size_inter_le_union F1 F2 : (size (F1 ∩ F2) <= size (F1 ∪ F2))%nat.
Proof.
  apply subseteq_size. intros x Hx. apply elem_of_intersection in Hx as [Hx _].
  now apply elem_of_union_l.
Qed.

Lemma jaccard_spec F1 F2 : F1 ∪ F2 <> ∅ -> jaccard F1 F2 = OK (spec_jaccard F1 F2).
Proof.
  intros Hne. unfold jaccard, spec_jaccard.
  destruct (decide (F1 ∪ F2 = ∅)) as [E|_]; [contradiction|].
  apply truediv_nonzero. rewrite of_int_zero_iff.
  intros E. apply size_empty_iff in E. apply Hne. now apply leibniz_equiv.
Qed.

Lemma jaccard_empty : jaccard ∅ ∅ = Raise ZeroDivisionError.
Proof. reflexivity. Qed.

Lemma jaccard_bounds F1 F2 v : jaccard F1 F2 = OK v -> 0 <= v <= 1.
Proof.
  unfold jaccard. intros H. apply truediv_OK_inv in H as [Hnz ->].
  apply quotient_bounds.
  - apply of_int_nonneg.
  - apply of_int_le, size_inter_le_union.
  - rewrite of_int_zero_iff in Hnz. apply of_int_pos. lia.
Qed.

Lemma spec_jaccard_bounds F1 F2 : 0 <= spec_jaccard F1 F2 <= 1.
Proof.
  unfold spec_jaccard. destruct (decide (F1 ∪ F2 = ∅)) as [E|Hne]; [lra|].
  apply quotient_bounds.
  - apply of_int_nonneg.
  - apply of_int_le, size_inter_le_union.
  - apply of_int_pos.
    assert (size (F1 ∪ F2) <> 0%nat); [|lia].
    intros E. apply size_empty_iff in E. apply Hne. now apply leibniz_equiv.
Qed.

Lemma spec_jaccard_self F : F <> ∅ -> spec_jaccard F F == 1.
Proof.
  intros Hne. unfold spec_jaccard.
  rewrite union_idemp_L, intersection_idemp_L.
  destruct (decide (F = ∅)) as [E|_]; [contradiction|].
  apply quotient_self. rewrite of_int_zero_iff.
  intros E. apply size_empty_iff in E. apply Hne. now apply leibniz_equiv.
Qed.

(** All Jaccard similarities of [F1] against a list are defined as soon as
    [F1] is not empty. *)
Lemma mapM_jaccard_spec F1 fs :
  F1 <> ∅ -> mapM (jaccard F1) fs = OK (map (spec_jaccard F1) fs).
Proof.
  intros Hne. apply mapM_OK_Forall2.
  induction fs as [|F2 fs IH]; simpl; constructor; [|assumption].
  apply jaccard_spec. intros E. apply Hne.
  apply leibniz_equiv. apply (empty_union_L F1 F2) in E as [E _]. now rewrite E.
Qed.

Lemma fold_right_Qmax_proper (xs : list Q) (b b' : Q) :
  b == b' -> fold_right Qmax b xs == fold_right Qmax b' xs.
Proof.
  intros H. induction xs as [|x xs IH]; simpl; [assumption|].
  rewrite IH. reflexivity.
Qed.

Lemma fold_right_Qmax_base (xs : list Q) (a x : Q) :
  fold_right Qmax (Qmax a x) xs == Qmax x (fold_right Qmax a xs).
Proof.
  induction xs as [|y ys IH]; simpl.
  - apply Q.max_comm.
  - rewrite IH, !Q.max_assoc, (Q.max_comm y x). reflexivity.
Qed.

(** The running maximum of [max(...)] is the largest element. *)
Lemma fold_py_max_Qmax (xs : list Q) (a : Q) :
  fold_left py_max xs a == fold_right Qmax a xs.
Proof.
  revert a. induction xs as [|x xs IH]; intros a; simpl; [reflexivity|].
  rewrite IH, (fold_right_Qmax_proper xs _ _ (py_max_Qmax a x)).
  apply fold_right_Qmax_base.
Qed.

Lemma py_max_default_spec (xs : list Q) :
  Forall (fun x => 0 <= x) xs -> py_max_default xs 0 == fold_right Qmax 0 xs.
Proof.
  intros H. destruct H as [|x xs Hx _]; simpl; [reflexivity|].
  rewrite fold_py_max_Qmax.
  rewrite <- (fold_right_Qmax_proper xs (Qmax 0 x) x) by now apply Q.max_r.
  apply fold_right_Qmax_base.
Qed.

Lemma fold_right_Qmax_bounds (xs : list Q) :
  Forall (fun x => 0 <= x <= 1) xs -> 0 <= fold_right Qmax 0 xs <= 1.
Proof.
  induction 1 as [|x xs [Hx0 Hx1] _ [IH0 IH1]]; simpl; [lra|]. split.
  - apply (Qle_trans _ x); [assumption|apply Q.le_max_l].
  - apply Q.max_lub; assumption.
Qed.

Lemma fold_right_Qmax_ge (xs : list Q) (x : Q) :
  In x xs -> x <= fold_right Qmax 0 xs.
Proof.
  induction xs as [|y ys IH]; simpl; [contradiction|].
  intros [->|H].
  - apply Q.le_max_l.
  - apply (Qle_trans _ _ _ (IH H)), Q.le_max_r.
Qed.

Lemma spec_best_match_bounds F1 fs : 0 <= spec_best_match F1 fs <= 1.
Proof.
  unfold spec_best_match. apply fold_right_Qmax_bounds.
  apply List.Forall_forall. intros x Hx. apply in_map_iff in Hx as (F2 & <- & _).
  apply spec_jaccard_bounds.
Qed.

Lemma spec_best_match_self F fs : F <> ∅ -> In F fs -> spec_best_match F fs == 1.
Proof.
  intros Hne Hin. apply Qle_antisym; [apply spec_best_match_bounds|].
  rewrite <- (spec_jaccard_self F Hne).
  apply fold_right_Qmax_ge, in_map, Hin.
Qed.

(** One turn of the loop adds the best match of [features1]. *)
Lemma add_max_similarity_spec fs2 (total : Q) F1 :
  F1 <> ∅ ->
  exists v, add_max_similarity fs2 total F1 = OK v
            /\ v == total + spec_best_match F1 fs2.
Proof.
  intros Hne. unfold add_max_similarity.
  rewrite (mapM_jaccard_spec F1 fs2 Hne), bind_OK.
  eexists. split; [reflexivity|].
  rewrite py_max_default_spec; [reflexivity|].
  apply List.Forall_forall. intros x Hx. apply in_map_iff in Hx as (F2 & <- & _).
  apply spec_jaccard_bounds.
Qed.

Lemma add_max_similarity_bounds fs2 (total v : Q) F1 :
  add_max_similarity fs2 total F1 = OK v -> total <= v <= total + 1.
Proof.
  unfold add_max_similarity. intros H.
  apply bind_OK_inv in H as (sims & Hsims & [= <-]).
  assert (Forall (fun x => 0 <= x <= 1) sims) as Hb.
  { apply mapM_OK_Forall2 in Hsims. clear -Hsims.
    induction Hsims as [|F2 x fs sims Hx _ IH]; constructor; [|assumption].
    eapply jaccard_bounds; eassumption. }
  assert (0 <= py_max_default sims 0 <= 1) as [H0 H1].
  { rewrite py_max_default_spec.
    - now apply fold_right_Qmax_bounds.
    - eapply Forall_impl; [exact Hb|]. simpl. intros x [Hx _]. exact Hx. }
  split; lra.
Qed.

Lemma loop_spec fs1 fs2 (total : Q) :
  Forall (fun F => F <> ∅) fs1 ->
  exists v, for_each (add_max_similarity fs2) fs1 total = OK v
            /\ v == total + fold_right Qplus 0 (map (fun F1 => spec_best_match F1 fs2) fs1).
Proof.
  intros H. revert total.
  induction H as [|F1 fs1 Hne _ IH]; intros total; cbn [for_each map fold_right].
  - exists total. split; [reflexivity|ring].
  - destruct (add_max_similarity_spec fs2 total F1 Hne) as (t1 & -> & E1).
    rewrite bind_OK. destruct (IH t1) as (v & Hv & Ev).
    exists v. split; [assumption|]. rewrite Ev, E1. ring.
Qed.

Lemma loop_bounds fs1 fs2 (total v : Q) :
  for_each (add_max_similarity fs2) fs1 total = OK v ->
  total <= v <= total + of_int (length fs1).
Proof.
  revert total. induction fs1 as [|F1 fs1 IH]; intros total; cbn [for_each length].
  - intros [= <-]. change (of_int 0) with 0. split; lra.
  - intros H. apply bind_OK_inv in H as (t1 & H1 & H).
    apply add_max_similarity_bounds in H1. apply IH in H.
    change (S (length fs1)) with (1 + length fs1)%nat.
    rewrite of_int_plus. change (of_int 1) with 1. split; lra.
Qed.

Lemma avg_similarity_spec fs1 fs2 :
  Forall (fun F => F <> ∅) fs1 ->
  exists v, avg_similarity fs1 fs2 = OK v /\ v == spec_feature_similarity fs1 fs2.
Proof.
  intros H. unfold avg_similarity, spec_feature_similarity.
  destruct (loop_spec fs1 fs2 0 H) as (t & -> & Et). rewrite bind_OK.
  destruct fs1 as [|F1 fs1]; [exists 0; split; reflexivity|].
  assert (0 < of_int (length (F1 :: fs1))) as Hpos by (apply of_int_pos; simpl; lia).
  rewrite truediv_nonzero by lra.
  eexists. split; [reflexivity|].
  unfold spec_mean. cbn [map length fold_right] in *. rewrite length_map.
  rewrite Et. field. lra.
Qed.

Lemma avg_similarity_bounds fs1 fs2 v :
  avg_similarity fs1 fs2 = OK v -> 0 <= v <= 1.
Proof.
  unfold avg_similarity. intros H. apply bind_OK_inv in H as (t & Ht & H).
  apply loop_bounds in Ht as [Ht0 Ht1].
  destruct fs1 as [|F1 fs1].
  - injection H as <-. lra.
  - apply truediv_OK_inv in H as [Hnz ->].
    assert (0 < of_int (length (F1 :: fs1))) as Hpos by (apply of_int_pos; simpl; lia).
    apply quotient_bounds; [lra|lra|assumption].
Qed.

Lemma sum_of_ones {A : Type} (g : A -> Q) (l : list A) :
  (forall x, In x l -> g x == 1) ->
  fold_right Qplus 0 (map g l) == of_int (length l).
Proof.
  induction l as [|x l IH]; intros H; cbn [map fold_right length]; [reflexivity|].
  rewrite IH by (intros y Hy; apply H; now right).
  rewrite (H x) by now left.
  change (S (length l)) with (1 + length l)%nat. rewrite of_int_plus. reflexivity.
Qed.

Lemma spec_feature_similarity_self fs :
  fs <> [] -> Forall (fun F => F <> ∅) fs -> spec_feature_similarity fs fs == 1.
Proof.
  intros Hne Hall. unfold spec_feature_similarity, spec_mean.
  destruct fs as [|F fs']; [congruence|]. remember (F :: fs') as fs eqn:Efs.
  assert (map (fun F1 => spec_best_match F1 fs) fs <> []) as Hmap.
  { rewrite Efs. discriminate. }
  destruct (map (fun F1 => spec_best_match F1 fs) fs) as [|b bs] eqn:Em; [congruence|].
  rewrite <- Em, length_map.
  rewrite sum_of_ones.
  - apply quotient_self. rewrite of_int_zero_iff, Efs. discriminate.
  - intros F1 Hin. apply spec_best_match_self; [|assumption].
    rewrite List.Forall_forall in Hall. now apply Hall.
Qed.

End BestMatch.

(** ** The whole comparison *)

Section Comparison.
Local Open Scope Q_scope.

Lemma length_similarity_ratio ms1 ms2 :
  length_similarity ms1 ms2 = ratio_similarity get_length ms1 ms2.
Proof. reflexivity. Qed.

Lemma bb_similarity_ratio ms1 ms2 :
  bb_similarity ms1 ms2
  = ratio_similarity (fun m => length (get_basic_blocks m)) ms1 ms2.
Proof. reflexivity. Qed.

Lemma overall_similarity_mean (s f c l b : Q) :
  overall_similarity s f c l b = OK ((s + f + c + l + b) / 5).
Proof. reflexivity. Qed.

(** After the filter, [compare_apk_code] is the preview followed by the
    metrics. *)
Lemma compare_apk_code_preview dx1 dx2 :
  (64 < length (List.filter filter_method dx1))%nat ->
  exists shown,
    compare_apk_code dx1 dx2
    = scores ← metrics (List.filter filter_method dx1) (List.filter filter_method dx2);
      OK (shown, scores).
Proof.
  intros H. unfold compare_apk_code, getitem, show_index.
  destruct (lookup_lt_is_Some_2 (List.filter filter_method dx1) 64 H) as [m ->].
  rewrite bind_OK. eexists. reflexivity.
Qed.

Lemma compare_apk_code_short dx1 dx2 :
  (length (List.filter filter_method dx1) <= 64)%nat ->
  compare_apk_code dx1 dx2 = Raise IndexError.
Proof.
  intros H. unfold compare_apk_code, getitem, show_index.
  rewrite (lookup_ge_None_2 _ _ H). reflexivity.
Qed.

Lemma feature_similarity_bounds ms1 ms2 v :
  feature_similarity ms1 ms2 = OK v -> 0 <= v <= 1.
Proof.
  unfold feature_similarity. intros H.
  apply bind_OK_inv in H as (fs1 & _ & H).
  apply bind_OK_inv in H as (fs2 & _ & H).
  eapply avg_similarity_bounds, H.
Qed.

(** The metrics are defined exactly when the two lists are not both empty
    (and the provider resolves the string loads). *)
Lemma metrics_total ms1 ms2 :
  forallb resolves ms1 = true -> forallb resolves ms2 = true ->
  ms1 <> [] \/ ms2 <> [] ->
  exists r, metrics ms1 ms2 = OK r.
Proof.
  intros R1 R2 Hne. unfold metrics.
  rewrite signature_similarity_names, (name_similarity_spec _ _ _ Hne), bind_OK.
  unfold feature_similarity.
  destruct (method_features_total ms1 R1) as (fs1 & -> & N1).
  destruct (method_features_total ms2 R2) as (fs2 & -> & N2).
  rewrite !bind_OK.
  destruct (avg_similarity_spec fs1 fs2 N1) as (f & -> & _). rewrite bind_OK.
  rewrite class_similarity_names, (name_similarity_spec _ _ _ Hne), bind_OK.
  rewrite length_similarity_ratio.
  destruct (ratio_similarity_spec get_length ms1 ms2) as (l & -> & _). rewrite bind_OK.
  rewrite bb_similarity_ratio.
  destruct (ratio_similarity_spec (fun m => length (get_basic_blocks m)) ms1 ms2)
    as (b & -> & _).
  rewrite bind_OK, overall_similarity_mean, bind_OK.
  eexists. reflexivity.
Qed.

End Comparison.

(** * The statements of the specification *)

(** C2: when at least one of the two filtered lists is not empty,
    signature similarity is the number of method signatures common to both
    lists over the larger number of distinct signatures, and class
    similarity is the same quotient on the distinct class names. *)
Theorem signature_and_class_similarity_formula (ms1 ms2 : list method) :
  ms1 <> [] \/ ms2 <> [] ->
  signature_similarity ms1 ms2
  = OK (spec_set_similarity (map get_method_signature ms1) (map get_method_signature ms2))
  /\ class_similarity ms1 ms2
     = OK (spec_set_similarity (map class_name ms1) (map class_name ms2)).
Proof.
  intros Hne. split.
  - rewrite signature_similarity_names. now apply name_similarity_spec.
  - rewrite class_similarity_names. now apply name_similarity_spec.
Qed.

Lemma signature_and_class_similarity_formula_witness :
  signature_similarity one_method three_methods = OK (1 # 3)%Q
  /\ class_similarity one_method three_methods = OK (1 # 1)%Q.
Proof.
  destruct (signature_and_class_similarity_formula one_method three_methods)
    as [Hs Hc].
  - left. discriminate.
  - rewrite Hs, Hc. split; vm_compute; reflexivity.
Defined.

(** C3: on two empty filtered lists the code divides by zero in the
    signature and in the class similarity: both computations raise
    [ZeroDivisionError], so do the metrics as a whole, and the comparison
    itself has already raised [IndexError] at the preview of method 64. *)
Theorem both_lists_empty_raises :
  signature_similarity [] [] = Raise ZeroDivisionError
  /\ class_similarity [] [] = Raise ZeroDivisionError
  /\ metrics [] [] = Raise ZeroDivisionError
  /\ compare_apk_code [] [] = Raise IndexError.
Proof. repeat split. Qed.

(** C4: length similarity is the min/max ratio of the two mean method
    lengths and basic-block-count similarity is the min/max ratio of the two
    mean numbers of basic blocks per method; each is 1 when both means are
    0, in particular on two empty lists.  Neither computation raises. *)
Theorem length_and_block_similarity_formula (ms1 ms2 : list method) :
  let mean_of (attr : method -> nat) (ms : list method) :=
    spec_mean (map of_int (map attr ms)) in
  let blocks (m : method) := length (get_basic_blocks m) in
  (exists v, length_similarity ms1 ms2 = OK v
     /\ (v == spec_ratio (mean_of get_length ms1) (mean_of get_length ms2))%Q
     /\ ((mean_of get_length ms1 == 0)%Q -> (mean_of get_length ms2 == 0)%Q -> (v == 1)%Q))
  /\ (exists w, bb_similarity ms1 ms2 = OK w
     /\ (w == spec_ratio (mean_of blocks ms1) (mean_of blocks ms2))%Q
     /\ ((mean_of blocks ms1 == 0)%Q -> (mean_of blocks ms2 == 0)%Q -> (w == 1)%Q))
  /\ length_similarity [] [] = OK 1%Q
  /\ bb_similarity [] [] = OK 1%Q.
Proof.
  intros mean_of blocks.
  assert (forall attr, exists v, ratio_similarity attr ms1 ms2 = OK v
     /\ (v == spec_ratio (mean_of attr ms1) (mean_of attr ms2))%Q
     /\ ((mean_of attr ms1 == 0)%Q -> (mean_of attr ms2 == 0)%Q -> (v == 1)%Q)) as H.
  { intros attr. destruct (ratio_similarity_spec attr ms1 ms2) as (v & Hv & Ev & _).
    exists v. split; [assumption|]. split; [assumption|].
    intros Z1 Z2. rewrite Ev. unfold spec_ratio.
    apply Qeq_eq_bool in Z1, Z2. fold (mean_of attr ms1) (mean_of attr ms2).
    rewrite Z1, Z2. reflexivity. }
  split; [|split; [|split; reflexivity]].
  - rewrite length_similarity_ratio. apply H.
  - rewrite bb_similarity_ratio. apply H.
Qed.

Lemma length_and_block_similarity_formula_witness :
  exists v, length_similarity [bare "a"] [] = OK v /\ (v == 1)%Q.
Proof.
  destruct (length_and_block_similarity_formula [bare "a"] [])
    as ((v & Hv & _ & Hone) & _).
  exists v. split; [assumption|].
  apply Hone; vm_compute; reflexivity.
Defined.

(** C6: signature, class, length and basic-block-count similarity do not
    depend on which list comes first: with the lists swapped each of them
    raises the same exception or returns an equal number. *)
Theorem four_metrics_symmetric (A B : list method) :
  result_eq (signature_similarity A B) (signature_similarity B A)
  /\ result_eq (class_similarity A B) (class_similarity B A)
  /\ result_eq (length_similarity A B) (length_similarity B A)
  /\ result_eq (bb_similarity A B) (bb_similarity B A).
Proof.
  assert (forall r, result_eq r r) as Hrefl.
  { intros [v|e]; simpl; reflexivity. }
  repeat split.
  - rewrite !signature_similarity_names, (name_similarity_sym _ A B). apply Hrefl.
  - rewrite !class_similarity_names, (name_similarity_sym _ A B). apply Hrefl.
  - rewrite !length_similarity_ratio. apply ratio_similarity_sym.
  - rewrite !bb_similarity_ratio. apply ratio_similarity_sym.
Qed.

(** C1: for two filtered lists whose string loads resolve, the feature
    similarity is the arithmetic mean, over the feature sets of list 1, of
    the largest Jaccard similarity against the feature sets of list 2
    (Jaccard taken as 0 on an empty union); each per-method maximum is 0
    when list 2 is empty and the mean is 0 when list 1 is empty. *)
Theorem feature_similarity_is_mean_of_best_matches (ms1 ms2 : list method) :
  forallb resolves ms1 = true -> forallb resolves ms2 = true ->
  exists fs1 fs2 v,
    mapM get_method_features ms1 = OK fs1
    /\ mapM get_method_features ms2 = OK fs2
    /\ feature_similarity ms1 ms2 = OK v
    /\ (v == spec_feature_similarity fs1 fs2)%Q
    /\ (ms2 = [] ->
        forall (total : Q) F1, add_max_similarity fs2 total F1 = OK (total + 0)%Q)
    /\ (ms1 = [] -> v = 0%Q).
Proof.
  intros R1 R2.
  destruct (method_features_total ms1 R1) as (fs1 & H1 & N1).
  destruct (method_features_total ms2 R2) as (fs2 & H2 & N2).
  destruct (avg_similarity_spec fs1 fs2 N1) as (v & Hv & Ev).
  exists fs1, fs2, v. unfold feature_similarity. rewrite H1, H2, !bind_OK.
  repeat split; try assumption.
  - intros -> total F1. injection H2 as <-. reflexivity.
  - intros ->. injection H1 as <-. now injection Hv as <-.
Qed.

Lemma feature_similarity_is_mean_of_best_matches_witness :
  exists v, feature_similarity three_methods [greet; bare "b"] = OK v /\ (v == 1 # 3)%Q.
Proof.
  destruct (feature_similarity_is_mean_of_best_matches three_methods [greet; bare "b"])
    as (fs1 & fs2 & v & _ & _ & Hv & _).
  - reflexivity.
  - reflexivity.
  - exists v. split; [assumption|].
    vm_compute in Hv. injection Hv as <-. reflexivity.
Defined.

(** C5: whenever the five metrics are all defined, each of them lies
    between 0 and 1, the overall score is their sum divided by 5, and the
    overall score lies between 0 and 1 as well. *)
Theorem metrics_in_unit_interval (ms1 ms2 : list method) (r : report) :
  metrics ms1 ms2 = OK r ->
  (0 <= rep_signature r <= 1)%Q
  /\ (0 <= rep_feature r <= 1)%Q
  /\ (0 <= rep_class r <= 1)%Q
  /\ (0 <= rep_length r <= 1)%Q
  /\ (0 <= rep_bb r <= 1)%Q
  /\ rep_overall r
     = ((rep_signature r + rep_feature r + rep_class r + rep_length r + rep_bb r) / 5)%Q
  /\ (0 <= rep_overall r <= 1)%Q.
Proof.
  unfold metrics. intros H.
  apply bind_OK_inv in H as (s & Hs & H).
  apply bind_OK_inv in H as (f & Hf & H).
  apply bind_OK_inv in H as (c & Hc & H).
  apply bind_OK_inv in H as (l & Hl & H).
  apply bind_OK_inv in H as (b & Hb & H).
  rewrite overall_similarity_mean, bind_OK in H. injection H as <-. simpl.
  rewrite signature_similarity_names in Hs. apply name_similarity_bounds in Hs.
  apply feature_similarity_bounds in Hf.
  rewrite class_similarity_names in Hc. apply name_similarity_bounds in Hc.
  rewrite length_similarity_ratio in Hl. rewrite bb_similarity_ratio in Hb.
  destruct (ratio_similarity_spec get_length ms1 ms2) as (l' & Hl' & _ & Bl).
  destruct (ratio_similarity_spec (fun m => length (get_basic_blocks m)) ms1 ms2)
    as (b' & Hb' & _ & Bb).
  assert (l' = l) as -> by congruence. assert (b' = b) as -> by congruence.
  repeat split; try tauto.
  - apply Qle_shift_div_l; lra.
  - apply Qle_shift_div_r; lra.
Qed.

Lemma metrics_in_unit_interval_witness :
  exists r, metrics [greet; bare "a"] three_methods = OK r
            /\ (0 <= rep_overall r <= 1)%Q /\ (rep_feature r == 1 # 2)%Q.
Proof.
  destruct (metrics [greet; bare "a"] three_methods) as [r|e] eqn:E;
    [|vm_compute in E; discriminate].
  exists r. split; [reflexivity|]. split.
  - apply (metrics_in_unit_interval [greet; bare "a"] three_methods r E).
  - vm_compute in E. injection E as <-. reflexivity.
Defined.

(** C7: feature similarity depends on the order of the two lists: with one
    method in A and three methods with pairwise disjoint feature sets in B,
    one of which is the method of A, it is 1 from A to B and 1/3 from B to
    A. *)
Theorem feature_similarity_asymmetric :
  exists A B : list method,
    length A = 1%nat /\ length B = 3%nat
    /\ forallb filter_method (A ++ B) = true
    /\ (exists F1 F2 F3, mapM get_method_features B = OK [F1; F2; F3]
          /\ F1 ## F2 /\ F1 ## F3 /\ F2 ## F3)
    /\ exists a b, feature_similarity A B = OK a /\ feature_similarity B A = OK b
                   /\ (a == 1)%Q /\ (b == 1 # 3)%Q /\ ~ (a == b)%Q.
Proof.
  exists one_method, three_methods.
  split; [reflexivity|]. split; [reflexivity|]. split; [reflexivity|]. split.
  - exists {[ signature_token (bare "a") ]}, {[ signature_token (bare "b") ]},
      {[ signature_token (bare "c") ]}.
    split.
    + apply mapM_OK_Forall2.
      repeat constructor; apply get_method_features_degenerate; reflexivity.
    + repeat split; apply disjoint_singleton_l, not_elem_of_singleton;
        vm_compute; discriminate.
  - exists 1%Q, (4 # 12)%Q.
    split; [vm_compute; reflexivity|]. split; [vm_compute; reflexivity|].
    split; [reflexivity|]. split; [reflexivity|]. vm_compute. discriminate.
Qed.

(** C8, as stated, fails on the empty list: the metrics of the empty list
    against itself raise [ZeroDivisionError] (and the comparison raises
    [IndexError] before that), so no metric value 1 is produced. *)
Lemma self_comparison_of_empty_list :
  metrics [] [] = Raise ZeroDivisionError
  /\ compare_apk_code [] [] = Raise IndexError
  /\ ~ (exists r, metrics [] [] = OK r /\ (rep_signature r == 1)%Q).
Proof.
  split; [reflexivity|]. split; [reflexivity|].
  intros (r & H & _). discriminate H.
Qed.

(** C8, amended: a non-empty filtered list whose string loads resolve,
    compared with itself, gets exactly 1 for each of the five metrics and
    for the overall score; [compare_apk_code] returns these scores when the
    list has more than 64 methods. *)
Theorem self_comparison_is_one (dx : list method) :
  let A := List.filter filter_method dx in
  A <> [] -> forallb resolves A = true ->
  exists r, metrics A A = OK r
    /\ (rep_signature r == 1)%Q /\ (rep_feature r == 1)%Q /\ (rep_class r == 1)%Q
    /\ (rep_length r == 1)%Q /\ (rep_bb r == 1)%Q /\ (rep_overall r == 1)%Q
    /\ ((64 < length A)%nat -> exists shown, compare_apk_code dx dx = OK (shown, r)).
Proof.
  intros A Hne R.
  assert (exists f, feature_similarity A A = OK f /\ (f == 1)%Q) as (f & Hf & Ef).
  { unfold feature_similarity.
    destruct (method_features_total A R) as (fs & Hfs & N). rewrite Hfs, !bind_OK.
    destruct (avg_similarity_spec fs fs N) as (f & Hf & Ef).
    exists f. split; [assumption|]. rewrite Ef.
    apply spec_feature_similarity_self; [|assumption].
    intros ->. apply mapM_OK_length in Hfs. destruct A; [congruence|discriminate]. }
  destruct (name_similarity_self get_method_signature A Hne) as (s & Hs & Es).
  destruct (name_similarity_self class_name A Hne) as (c & Hc & Ec).
  destruct (ratio_similarity_self get_length A) as (l & Hl & El).
  destruct (ratio_similarity_self (fun m => length (get_basic_blocks m)) A)
    as (b & Hb & Eb).
  assert (metrics A A
          = OK {| rep_signature := s; rep_feature := f; rep_class := c;
                  rep_length := l; rep_bb := b;
                  rep_overall := ((s + f + c + l + b) / 5)%Q |}) as Hm.
  { unfold metrics.
    rewrite signature_similarity_names, Hs, bind_OK, Hf, bind_OK.
    rewrite class_similarity_names, Hc, bind_OK.
    rewrite length_similarity_ratio, Hl, bind_OK.
    rewrite bb_similarity_ratio, Hb, bind_OK.
    rewrite overall_similarity_mean, bind_OK. reflexivity. }
  eexists. split; [exact Hm|]. simpl.
  repeat (split; [assumption|]). split.
  - rewrite Es, Ef, Ec, El, Eb. reflexivity.
  - intros Hlen. destruct (compare_apk_code_preview dx dx Hlen) as [shown Hcmp].
    exists shown. rewrite Hcmp. fold A. rewrite Hm. reflexivity.
Qed.

Lemma self_comparison_is_one_witness :
  exists shown r, compare_apk_code many_methods many_methods = OK (shown, r)
                  /\ (rep_overall r == 1)%Q.
Proof.
  destruct (self_comparison_is_one many_methods)
    as (r & _ & _ & _ & _ & _ & _ & Eo & Hcmp).
  - intros E. apply (f_equal length) in E. vm_compute in E. discriminate E.
  - vm_compute. reflexivity.
  - destruct Hcmp as [shown Hcmp].
    + vm_compute. lia.
    + exists shown, r. split; assumption.
Defined.

(** C9, as stated, fails: one string load whose constant does not resolve
    makes the extraction of the whole method raise, although the same
    method without that instruction has a feature set of five tokens. *)
Lemma failed_resolution_aborts_extraction :
  get_method_features greet_dangling = Raise ResolutionError
  /\ feature_count greet = OK 5%nat.
Proof. split; vm_compute; reflexivity. Qed.

(** C9, amended: string-constant resolution is not guarded.  In a method
    with code, a string load whose constant fails to resolve makes
    [get_method_features] raise the exception of the first such load, and
    the method yields no feature set; when [get_method_features] returns,
    every string load of the method has resolved and its token is in the
    returned set. *)
Theorem resolution_failure_propagates (m : method) :
  (code m = true ->
   Exists (fun i => get_name i ∈ string_loads /\ exists e, get_cm_string i = Raise e)
          (get_instructions m) ->
   exists i e, i ∈ get_instructions m /\ get_name i ∈ string_loads
               /\ get_cm_string i = Raise e /\ get_method_features m = Raise e)
  /\ (forall features, code m = true -> get_method_features m = OK features ->
      Forall (fun i => get_name i ∈ string_loads ->
                exists s, get_cm_string i = OK s /\ string_token s ∈ features)
             (get_instructions m)).
Proof.
  unfold get_method_features. split.
  - intros -> H. now apply for_each_add_string_raises.
  - intros features -> H. now apply for_each_add_string_OK in H.
Qed.

Lemma resolution_failure_propagates_witness :
  exists i e, i ∈ get_instructions greet_dangling
              /\ get_cm_string i = Raise e
              /\ get_method_features greet_dangling = Raise e.
Proof.
  destruct (resolution_failure_propagates greet_dangling) as [H _].
  destruct H as (i & e & Hin & _ & He & Hraise).
  - reflexivity.
  - right. left. split.
    + vm_compute. left.
    + exists ResolutionError. reflexivity.
  - exists i, e. auto.
Defined.

(** C10: the feature set that [get_method_features] returns always
    contains the hash of ["signature:"] followed by the method's
    [full_name], so it is never empty; the extraction returns whenever the
    string loads resolve, and for a method with no cross-reference, no basic
    block and no instruction the set is exactly that one token. *)
Theorem signature_token_always_extracted (m : method) :
  (forall features, get_method_features m = OK features ->
     hash_feature ("signature:" ++ full_name m) ∈ features /\ features <> ∅)
  /\ (resolves m = true -> exists features, get_method_features m = OK features)
  /\ (get_xref_to m = [] -> get_basic_blocks m = [] -> get_instructions m = [] ->
      get_method_features m = OK {[ hash_feature ("signature:" ++ full_name m) ]}).
Proof.
  split; [|split].
  - intros features H. split.
    + now apply get_method_features_signature.
    + eapply get_method_features_nonempty, H.
  - apply get_method_features_total.
  - apply get_method_features_degenerate.
Qed.

Lemma signature_token_always_extracted_witness :
  get_method_features (bare "a")
  = OK {[ hash_feature "signature:Lwisemate/ai/Core; a ()V" ]}
  /\ exists features, get_method_features greet = OK features
                      /\ hash_feature "signature:Lwisemate/ai/Chat; greet ()V" ∈ features.
Proof.
  split.
  - apply (signature_token_always_extracted (bare "a")); reflexivity.
  - destruct (signature_token_always_extracted greet) as (Hin & Htot & _).
    destruct Htot as [features H]; [reflexivity|].
    exists features. split; [assumption|]. apply (Hin features H).
Defined.

(** * Further properties of [main.py] *)

(** ** The content of a feature set *)

Section FeatureSet.
Implicit Types (features : gset string) (m : method).

Lemma union_insert_swap (a : string) (L features : gset string) :
  L ∪ ({[ a ]} ∪ features) = ({[ a ]} ∪ L) ∪ features.
Proof. apply set_eq. intros x. rewrite !elem_of_union. tauto. Qed.

Lemma union_app_swap (L1 L2 features : gset string) :
  L2 ∪ (L1 ∪ features) = (L1 ∪ L2) ∪ features.
Proof. apply set_eq. intros x. rewrite !elem_of_union. tauto. Qed.

Lemma fold_add_api_call_eq (xs : list xref) features :
  fold_left add_api_call xs features
  = list_to_set (map api_call_token xs) ∪ features.
Proof.
  revert features. induction xs as [|[[c call] o] xs IH]; intros features;
    cbn [fold_left map list_to_set].
  - symmetry. apply (left_id_L ∅ (∪)).
  - rewrite IH. apply union_insert_swap.
Qed.

Lemma fold_add_block_eq (bs : list basic_block) features :
  fold_left add_block bs features
  = list_to_set (map block_token bs) ∪ features.
Proof.
  revert features. induction bs as [|b bs IH]; intros features;
    cbn [fold_left map list_to_set].
  - symmetry. apply (left_id_L ∅ (∪)).
  - rewrite IH. apply union_insert_swap.
Qed.

Lemma add_string_feature_eq features i :
  add_string_feature features i
  = if string_load i
    then s ← get_cm_string i; OK ({[ string_token s ]} ∪ features)
    else OK features.
Proof. reflexivity. Qed.

Lemma for_each_add_string_eq (ins : list instruction) features :
  forallb load_resolves ins = true ->
  for_each add_string_feature ins features
  = OK (list_to_set (map string_token (loaded_strings ins)) ∪ features).
Proof.
  revert features. induction ins as [|i ins IH]; intros features H.
  - cbn [for_each loaded_strings flat_map map list_to_set]. f_equal.
    symmetry. apply (left_id_L ∅ (∪)).
  - cbn [forallb] in H. apply andb_true_iff in H as [Hi H].
    cbn [for_each loaded_strings flat_map].
    fold (loaded_strings ins).
    unfold load_resolves in Hi. rewrite add_string_feature_eq.
    destruct (string_load i).
    + destruct (get_cm_string i) as [s|e]; [|discriminate].
      rewrite !bind_OK, (IH _ H). f_equal.
      cbn [app map list_to_set]. apply union_insert_swap.
    + rewrite bind_OK, (IH _ H). reflexivity.
Qed.

Lemma get_method_features_eq m :
  resolves m = true -> get_method_features m = OK (feature_set m).
Proof.
  unfold resolves, get_method_features, feature_set. intros H.
  rewrite fold_add_api_call_eq, fold_add_block_eq. fold (signature_token m).
  destruct (code m); [rewrite for_each_add_string_eq by exact H|];
    f_equal; apply set_eq; intros x; rewrite !elem_of_union, !elem_of_empty; tauto.
Qed.

Lemma size_list_to_set_le (l : list string) :
  size (list_to_set l : gset string) <= length l.
Proof.
  induction l as [|x l IH]; cbn [list_to_set length].
  - rewrite size_empty. lia.
  - rewrite size_union_alt, size_singleton.
    assert (size (list_to_set l ∖ {[x]} : gset string) <= size (list_to_set l : gset string)).
    { apply subseteq_size, subseteq_difference_l. reflexivity. }
    lia.
Qed.

Lemma size_union_le (X Y : gset string) : size (X ∪ Y) <= size X + size Y.
Proof.
  rewrite size_union_alt.
  assert (size (Y ∖ X) <= size Y)
    by (apply subseteq_size, subseteq_difference_l; reflexivity).
  lia.
Qed.

Lemma length_loaded_strings (ins : list instruction) :
  length (loaded_strings ins) <= length (List.filter string_load ins).
Proof.
  induction ins as [|i ins IH]; cbn [loaded_strings flat_map List.filter];
    [reflexivity|].
  fold (loaded_strings ins). rewrite length_app.
  destruct (string_load i); [|simpl; lia].
  destruct (get_cm_string i); simpl; lia.
Qed.

End FeatureSet.

Section FeatureSetContent.
Implicit Types (features : gset string) (m : method).

Lemma elem_of_loaded_strings (ins : list instruction) (s : string) :
  In s (loaded_strings ins)
  <-> exists i, In i ins /\ string_load i = true /\ get_cm_string i = OK s.
Proof.
  unfold loaded_strings. rewrite in_flat_map. split.
  - intros (i & Hi & Hs). exists i. split; [assumption|].
    destruct (string_load i); [|contradiction].
    destruct (get_cm_string i) as [s'|e]; [|contradiction].
    destruct Hs as [->|[]]. split; reflexivity.
  - intros (i & Hi & Hl & Hs). exists i. split; [assumption|].
    rewrite Hl, Hs. now left.
Qed.

Lemma elem_of_list_to_set_map {A : Type} (f : A -> string) (l : list A) (t : string) :
  t ∈ (list_to_set (map f l) : gset string) <-> exists x, In x l /\ t = f x.
Proof.
  rewrite elem_of_list_to_set, list_elem_of_In, in_map_iff.
  split; intros (x & H1 & H2); exists x; split; auto.
Qed.

Lemma elem_of_feature_set m (t : string) :
  t ∈ feature_set m
  <-> t = signature_token m
      \/ (exists x, In x (get_xref_to m) /\ t = api_call_token x)
      \/ (exists b, In b (get_basic_blocks m) /\ t = block_token b)
      \/ (code m = true
          /\ exists i s, In i (get_instructions m) /\ string_load i = true
                         /\ get_cm_string i = OK s /\ t = string_token s).
Proof.
  unfold feature_set. rewrite !elem_of_union, elem_of_singleton.
  rewrite !elem_of_list_to_set_map.
  assert (t ∈ (if code m
               then list_to_set (map string_token (loaded_strings (get_instructions m)))
               else ∅ : gset string)
          <-> code m = true
              /\ exists i s, In i (get_instructions m) /\ string_load i = true
                             /\ get_cm_string i = OK s /\ t = string_token s) as ->.
  { destruct (code m).
    - rewrite elem_of_list_to_set_map. split.
      + intros (s & Hs & ->). apply elem_of_loaded_strings in Hs as (i & Hi & Hl & Hs).
        split; [reflexivity|]. exists i, s. auto.
      + intros (_ & i & s & Hi & Hl & Hs & ->). exists s. split; [|reflexivity].
        apply elem_of_loaded_strings. exists i. auto.
    - rewrite elem_of_empty. split; [contradiction|]. intros [H _]. discriminate H. }
  tauto.
Qed.

(** A returned feature set means that every string load resolved. *)
Lemma get_method_features_OK_resolves m features :
  get_method_features m = OK features -> resolves m = true.
Proof.
  unfold get_method_features, resolves. destruct (code m); [|reflexivity].
  intros H. apply for_each_add_string_OK in H as [_ H]. simpl.
  apply forallb_forall. intros i Hi.
  rewrite List.Forall_forall in H. specialize (H i Hi).
  unfold load_resolves, string_load.
  destruct (bool_decide (get_name i ∈ string_loads)) eqn:E; [|reflexivity].
  apply bool_decide_eq_true in E. destruct (H E) as (s & -> & _). reflexivity.
Qed.

Lemma size_feature_set_le m :
  size (feature_set m)
  <= 1 + length (get_xref_to m) + length (get_basic_blocks m)
     + length (List.filter string_load (get_instructions m)).
Proof.
  unfold feature_set.
  pose proof (size_list_to_set_le (map api_call_token (get_xref_to m))) as Hx.
  pose proof (size_list_to_set_le (map block_token (get_basic_blocks m))) as Hb.
  pose proof (size_list_to_set_le
                (map string_token (loaded_strings (get_instructions m)))) as Hs.
  pose proof (length_loaded_strings (get_instructions m)) as Hl.
  rewrite !length_map in *.
  eapply Nat.le_trans; [apply size_union_le|].
  assert (size (if code m
                then list_to_set (map string_token (loaded_strings (get_instructions m)))
                else ∅ : gset string)
          <= length (List.filter string_load (get_instructions m))) as Hc.
  { destruct (code m); [lia|]. rewrite size_empty. lia. }
  assert (size ({[signature_token m]}
                ∪ list_to_set (map api_call_token (get_xref_to m))
                ∪ list_to_set (map block_token (get_basic_blocks m)) : gset string)
          <= 1 + length (get_xref_to m) + length (get_basic_blocks m)); [|lia].
  eapply Nat.le_trans; [apply size_union_le|].
  assert (size ({[signature_token m]}
                ∪ list_to_set (map api_call_token (get_xref_to m)) : gset string)
          <= 1 + length (get_xref_to m)); [|lia].
  eapply Nat.le_trans; [apply size_union_le|]. rewrite size_singleton. lia.
Qed.

End FeatureSetContent.

(** X1: when the string loads of a method resolve, [get_method_features]
    returns a set that holds exactly: the signature token, the token of
    every cross-reference target, the token of every basic-block size and,
    for a method with code only, the token of every resolved string load.
    Nothing else is ever in the set; in a method without code the string
    loads leave no token. *)
Theorem feature_set_content (m : method) :
  resolves m = true ->
  exists features, get_method_features m = OK features
    /\ forall t, t ∈ features
       <-> t = hash_feature ("signature:" ++ full_name m)
           \/ (exists c call o, In (c, call, o) (get_xref_to m)
                                /\ t = hash_feature ("api_call:" ++ call))
           \/ (exists b, In b (get_basic_blocks m)
                         /\ t = hash_feature
                                  ("block:" ++ str_of_int (length (block_get_instructions b))))
           \/ (code m = true
               /\ exists i s, In i (get_instructions m)
                              /\ get_name i ∈ string_loads
                              /\ get_cm_string i = OK s
                              /\ t = hash_feature ("string:" ++ s)).
Proof.
  intros R. exists (feature_set m). split; [now apply get_method_features_eq|].
  intros t. rewrite elem_of_feature_set.
  assert ((exists x, In x (get_xref_to m) /\ t = api_call_token x)
          <-> exists c call o, In (c, call, o) (get_xref_to m)
                               /\ t = hash_feature ("api_call:" ++ call)) as ->.
  { split.
    - intros ([[c call] o] & H1 & H2). exists c, call, o. auto.
    - intros (c & call & o & H1 & H2). exists (c, call, o). auto. }
  assert (forall i, string_load i = true <-> get_name i ∈ string_loads) as Hload.
  { intros i. unfold string_load. apply bool_decide_eq_true. }
  assert ((exists i s, In i (get_instructions m) /\ string_load i = true
                       /\ get_cm_string i = OK s /\ t = string_token s)
          <-> exists i s, In i (get_instructions m) /\ get_name i ∈ string_loads
                          /\ get_cm_string i = OK s
                          /\ t = hash_feature ("string:" ++ s)) as ->.
  { split; intros (i & s & H1 & H2 & H3); exists i, s;
      (split; [assumption|]); (split; [now apply Hload|assumption]). }
  reflexivity.
Qed.

Lemma feature_set_content_witness :
  exists features, get_method_features greet = OK features
                   /\ hash_feature "string:hello" ∈ features
                   /\ hash_feature "block:2" ∈ features.
Proof.
  destruct (feature_set_content greet) as (features & H & Hin); [reflexivity|].
  exists features. split; [assumption|]. split; apply Hin.
  - right. right. right. split; [reflexivity|].
    exists (const_string "hello"), "hello". split; [now left|].
    split; [left|split; reflexivity].
  - right. right. left. eexists. split; [now left|]. reflexivity.
Defined.

(** X2: a returned feature set has at least one token and at most one
    token more than the method has cross-references, basic blocks and
    string-load instructions together. *)
Theorem feature_set_size_bounds (m : method) (features : gset string) :
  get_method_features m = OK features ->
  1 <= size features
  /\ size features
     <= 1 + length (get_xref_to m) + length (get_basic_blocks m)
        + length (List.filter string_load (get_instructions m)).
Proof.
  intros H. pose proof (get_method_features_OK_resolves m features H) as R.
  rewrite (get_method_features_eq m R) in H. injection H as <-. split.
  - assert (size (feature_set m) <> 0); [|lia].
    apply size_non_empty_iff. intros E.
    assert (signature_token m ∈ feature_set m) as Hin
      by (apply elem_of_feature_set; now left).
    rewrite E in Hin. now apply elem_of_empty in Hin.
  - apply size_feature_set_le.
Qed.

Lemma feature_set_size_bounds_witness :
  get_method_features caller_b = OK (feature_set caller_b)
  /\ 1 <= size (feature_set caller_b) <= 7.
Proof.
  assert (get_method_features caller_b = OK (feature_set caller_b)) as E
    by (apply get_method_features_eq; reflexivity).
  split; [exact E|].
  apply (feature_set_size_bounds caller_b (feature_set caller_b) E).
Defined.

(** X3: the feature set depends on the cross-references only through the
    set of called names and on the basic blocks only through the set of
    their instruction counts: two methods with the same name, code flag and
    instructions whose calls and block sizes agree as sets are extracted
    alike, whatever the order, the repetitions, the referenced classes and
    the offsets. *)
Theorem features_ignore_order_and_repetition (m m' : method) :
  full_name m = full_name m' ->
  code m = code m' ->
  get_instructions m = get_instructions m' ->
  (list_to_set (map (fun x : xref => snd (fst x)) (get_xref_to m)) : gset string)
  = list_to_set (map (fun x : xref => snd (fst x)) (get_xref_to m')) ->
  (list_to_set (map (fun b => length (block_get_instructions b)) (get_basic_blocks m))
     : gset nat)
  = list_to_set (map (fun b => length (block_get_instructions b)) (get_basic_blocks m')) ->
  get_method_features m = get_method_features m'.
Proof.
  intros Hn Hc Hi Hx Hb. unfold get_method_features.
  rewrite !fold_add_api_call_eq, !fold_add_block_eq, <- Hn, <- Hc, <- Hi.
  assert ((list_to_set (map api_call_token (get_xref_to m)) : gset string)
          = list_to_set (map api_call_token (get_xref_to m'))) as ->.
  { apply set_eq. intros t. rewrite !elem_of_list_to_set_map. split.
    - intros (x & Hin & ->).
      assert (snd (fst x) ∈ (list_to_set (map (fun x : xref => snd (fst x))
                                             (get_xref_to m)) : gset string)) as H
        by (apply elem_of_list_to_set_map; eauto).
      rewrite Hx in H. apply elem_of_list_to_set_map in H as (y & Hy & E).
      exists y. split; [assumption|]. unfold api_call_token. now rewrite E.
    - intros (x & Hin & ->).
      assert (snd (fst x) ∈ (list_to_set (map (fun x : xref => snd (fst x))
                                             (get_xref_to m')) : gset string)) as H
        by (apply elem_of_list_to_set_map; eauto).
      rewrite <- Hx in H. apply elem_of_list_to_set_map in H as (y & Hy & E).
      exists y. split; [assumption|]. unfold api_call_token. now rewrite E. }
  assert ((list_to_set (map block_token (get_basic_blocks m)) : gset string)
          = list_to_set (map block_token (get_basic_blocks m'))) as ->.
  { assert (forall (bs : list basic_block) (n : nat),
              n ∈ (list_to_set (map (fun b => length (block_get_instructions b)) bs)
                     : gset nat)
              <-> exists b, In b bs /\ n = length (block_get_instructions b)) as Hnat.
    { intros bs n. rewrite elem_of_list_to_set, list_elem_of_In, in_map_iff.
      split; intros (b & H1 & H2); exists b; split; auto. }
    apply set_eq. intros t. rewrite !elem_of_list_to_set_map. split.
    - intros (b & Hin & ->).
      assert (exists b', In b' (get_basic_blocks m')
                /\ length (block_get_instructions b) = length (block_get_instructions b'))
        as (b' & Hb' & E).
      { apply Hnat. rewrite <- Hb. apply Hnat. eauto. }
      exists b'. split; [assumption|]. unfold block_token. now rewrite E.
    - intros (b & Hin & ->).
      assert (exists b', In b' (get_basic_blocks m)
                /\ length (block_get_instructions b) = length (block_get_instructions b'))
        as (b' & Hb' & E).
      { apply Hnat. rewrite Hb. apply Hnat. eauto. }
      exists b'. split; [assumption|]. unfold block_token. now rewrite E. }
  reflexivity.
Qed.

Lemma features_ignore_order_and_repetition_witness :
  get_method_features caller_a = get_method_features caller_b.
Proof.
  apply features_ignore_order_and_repetition; reflexivity.
Defined.

(** ** The filter and the preview *)



Lemma filter_cons_false (m : method) (l : list method) :
  filter_method m = false -> List.filter filter_method (m :: l) = List.filter filter_method l.
Proof. intros H. simpl. now rewrite H. Qed.

Lemma filter_drop (m : method) (l1 l2 : list method) :
  filter_method m = false ->
  List.filter filter_method (l1 ++ m :: l2) = List.filter filter_method (l1 ++ l2).
Proof.
  intros H. rewrite !List.filter_app, (filter_cons_false m l2 H). reflexivity.
Qed.

Lemma compare_apk_code_filtered (dx1 dx2 dx1' dx2' : list method) :
  List.filter filter_method dx1 = List.filter filter_method dx1' ->
  List.filter filter_method dx2 = List.filter filter_method dx2' ->
  compare_apk_code dx1 dx2 = compare_apk_code dx1' dx2'.
Proof. intros H1 H2. unfold compare_apk_code. rewrite H1, H2. reflexivity. Qed.

(** X5: a method that does not pass the filter has no influence on the
    comparison: wherever it stands in the first or in the second input,
    removing it leaves the outcome (scores, preview or exception)
    unchanged. *)
Theorem filtered_out_method_is_ignored (m : method) (l1 l2 dx : list method) :
  filter_method m = false ->
  compare_apk_code (l1 ++ m :: l2) dx = compare_apk_code (l1 ++ l2) dx
  /\ compare_apk_code dx (l1 ++ m :: l2) = compare_apk_code dx (l1 ++ l2).
Proof.
  intros H. split; apply compare_apk_code_filtered;
    reflexivity || now apply filter_drop.
Qed.

Lemma filtered_out_method_is_ignored_witness :
  compare_apk_code (many_methods ++ public_method :: [foreign_method]) three_methods
  = compare_apk_code (many_methods ++ [foreign_method]) three_methods
  /\ compare_apk_code (many_methods ++ [foreign_method]) three_methods
     = compare_apk_code (many_methods ++ []) three_methods.
Proof.
  destruct (filtered_out_method_is_ignored public_method many_methods
              [foreign_method] three_methods) as [H1 _]; [reflexivity|].
  destruct (filtered_out_method_is_ignored foreign_method many_methods
              [] three_methods) as [H2 _]; [reflexivity|].
  split; [exact H1|exact H2].
Defined.

(** X6: the comparison needs at least 65 filtered methods in the first
    input.  With 64 or fewer it raises [IndexError] whatever the second
    input is; with more, and all string loads resolving, it returns the
    class name, signature, access tags and instruction names of filtered
    method number 64 of the first input together with the scores of the
    two filtered lists. *)
Theorem comparison_needs_65_methods (dx1 dx2 : list method) :
  let ms1 := List.filter filter_method dx1 in
  let ms2 := List.filter filter_method dx2 in
  (length ms1 <= 64 -> compare_apk_code dx1 dx2 = Raise IndexError)
  /\ (64 < length ms1 ->
      forallb resolves ms1 = true -> forallb resolves ms2 = true ->
      exists m r,
        ms1 !! 64 = Some m
        /\ metrics ms1 ms2 = OK r
        /\ compare_apk_code dx1 dx2
           = OK ((class_name m, full_name m, access m,
                  String.concat " " (map get_name (get_instructions m))), r)).
Proof.
  intros ms1 ms2. split.
  - apply compare_apk_code_short.
  - intros Hlen R1 R2.
    destruct (lookup_lt_is_Some_2 ms1 64 Hlen) as [m Hm].
    destruct (metrics_total ms1 ms2 R1 R2) as [r Hr].
    { left. intros E. rewrite E in Hlen. simpl in Hlen. lia. }
    exists m, r. split; [assumption|]. split; [assumption|].
    unfold compare_apk_code, getitem, show_index. fold ms1 ms2.
    rewrite Hm, bind_OK, Hr. reflexivity.
Qed.

Lemma comparison_needs_65_methods_witness :
  compare_apk_code three_methods many_methods = Raise IndexError
  /\ exists m r, compare_apk_code many_methods three_methods
                 = OK ((class_name m, full_name m, access m, ""), r)
                 /\ full_name m = "Lwisemate/ai/Core; m64 ()V".
Proof.
  split.
  - destruct (comparison_needs_65_methods three_methods many_methods) as [H _].
    apply H. vm_compute. lia.
  - destruct (comparison_needs_65_methods many_methods three_methods) as [_ H].
    destruct H as (m & r & Hm & _ & Hc).
    + vm_compute. lia.
    + reflexivity.
    + reflexivity.
    + exists m, r. vm_compute in Hm. injection Hm as <-. split; [exact Hc|reflexivity].
Defined.

(** ** Exceptions and degenerate inputs of the metrics *)

Section MetricsEdges.
Local Open Scope Q_scope.




Lemma mapM_features_nonempty (ms : list method) (fs : list (gset string)) :
  mapM get_method_features ms = OK fs -> Forall (fun F => F <> ∅) fs.
Proof.
  rewrite mapM_OK_Forall2.
  induction 1 as [|m F ms fs' Hm _ IH]; constructor; [|assumption].
  eapply get_method_features_nonempty; eassumption.
Qed.

(** The report is assembled from the five numbers. *)
Lemma metrics_assemble (ms1 ms2 : list method) (s f c l b : Q) :
  signature_similarity ms1 ms2 = OK s ->
  feature_similarity ms1 ms2 = OK f ->
  class_similarity ms1 ms2 = OK c ->
  length_similarity ms1 ms2 = OK l ->
  bb_similarity ms1 ms2 = OK b ->
  metrics ms1 ms2
  = OK {| rep_signature := s; rep_feature := f; rep_class := c; rep_length := l;
          rep_bb := b; rep_overall := (s + f + c + l + b) / 5 |}.
Proof.
  intros Hs Hf Hc Hl Hb. unfold metrics.
  rewrite Hs, bind_OK, Hf, bind_OK, Hc, bind_OK, Hl, bind_OK, Hb, bind_OK.
  rewrite overall_similarity_mean, bind_OK. reflexivity.
Qed.


Lemma name_similarity_empty_r attr (ms : list method) :
  ms <> [] -> exists v, name_similarity attr ms [] = OK v /\ v == 0.
Proof.
  intros Hne. unfold name_similarity. cbn [map list_to_set].
  rewrite intersection_empty_r_L, size_empty, Nat.max_0_r.
  rewrite truediv_nonzero.
  - eexists. split; [reflexivity|]. unfold Qdiv. change (of_int 0) with 0. ring.
  - rewrite of_int_zero_iff.
    assert (0 < size (list_to_set (map attr ms) : gset string))%nat; [|lia].
    apply size_list_to_set_pos. intros E. apply map_eq_nil in E. contradiction.
Qed.

Lemma name_similarity_empty_l attr (ms : list method) :
  ms <> [] -> exists v, name_similarity attr [] ms = OK v /\ v == 0.
Proof.
  intros Hne. rewrite name_similarity_sym. now apply name_similarity_empty_r.
Qed.

Lemma sum_of_zeros {A : Type} (g : A -> Q) (l : list A) :
  (forall x, In x l -> g x == 0) -> fold_right Qplus 0 (map g l) == 0.
Proof.
  induction l as [|x l IH]; intros H; cbn [map fold_right]; [reflexivity|].
  rewrite IH by (intros y Hy; apply H; now right).
  rewrite (H x) by now left. ring.
Qed.

Lemma spec_mean_zero (xs : list Q) : fold_right Qplus 0 xs == 0 -> spec_mean xs == 0.
Proof.
  intros H. destruct xs as [|x xs]; [reflexivity|].
  unfold spec_mean. rewrite H. unfold Qdiv. ring.
Qed.

Lemma avg_similarity_empty_r (fs : list (gset string)) :
  Forall (fun F => F <> ∅) fs ->
  exists v, avg_similarity fs [] = OK v /\ v == 0.
Proof.
  intros N. destruct (avg_similarity_spec fs [] N) as (v & Hv & Ev).
  exists v. split; [assumption|]. rewrite Ev.
  apply spec_mean_zero, sum_of_zeros. reflexivity.
Qed.

End MetricsEdges.



(** X8: when exactly one of the two lists is empty (and the string loads
    of the other resolve), the metrics are defined in both directions;
    signature, feature and class similarity are 0 and the overall score is
    at most 2/5. *)
Theorem one_empty_list_scores (ms : list method) :
  ms <> [] -> forallb resolves ms = true ->
  exists r r',
    metrics ms [] = OK r /\ metrics [] ms = OK r'
    /\ (rep_signature r == 0 /\ rep_feature r == 0 /\ rep_class r == 0
        /\ rep_overall r <= 2 # 5)%Q
    /\ (rep_signature r' == 0 /\ rep_feature r' == 0 /\ rep_class r' == 0
        /\ rep_overall r' <= 2 # 5)%Q.
Proof.
  intros Hne R.
  destruct (method_features_total ms R) as (fs & Hfs & N).
  assert (forall s f c l b : Q,
            (s == 0 -> f == 0 -> c == 0 -> 0 <= l <= 1 -> 0 <= b <= 1 ->
             (s + f + c + l + b) / 5 <= 2 # 5)%Q) as Hmean.
  { intros s f c l b Hs Hf Hc Hl Hb. apply Qle_shift_div_r; [reflexivity|].
    rewrite Hs, Hf, Hc. lra. }
  destruct (name_similarity_empty_r get_method_signature ms Hne) as (s & Hs & Es).
  destruct (name_similarity_empty_r class_name ms Hne) as (c & Hc & Ec).
  destruct (avg_similarity_empty_r fs N) as (f & Hf & Ef).
  destruct (ratio_similarity_spec get_length ms []) as (l & Hl & _ & Bl).
  destruct (ratio_similarity_spec (fun m => length (get_basic_blocks m)) ms [])
    as (b & Hb & _ & Bb).
  destruct (name_similarity_empty_l get_method_signature ms Hne) as (s' & Hs' & Es').
  destruct (name_similarity_empty_l class_name ms Hne) as (c' & Hc' & Ec').
  destruct (ratio_similarity_spec get_length [] ms) as (l' & Hl' & _ & Bl').
  destruct (ratio_similarity_spec (fun m => length (get_basic_blocks m)) [] ms)
    as (b' & Hb' & _ & Bb').
  eexists _, _. split; [|split].
  - apply (metrics_assemble ms [] s f c l b); try assumption.
    unfold feature_similarity. rewrite Hfs, bind_OK. exact Hf.
  - apply (metrics_assemble [] ms s' 0 c' l' b'); try assumption.
    unfold feature_similarity. cbn [mapM]. rewrite bind_OK, Hfs, bind_OK. reflexivity.
  - cbn [rep_signature rep_feature rep_class rep_overall].
    split; [auto using Hmean|]. 
    repeat split; try assumption; try reflexivity. now apply Hmean.
Qed.

Lemma one_empty_list_scores_witness :
  exists r, metrics three_methods [] = OK r /\ (rep_overall r <= 2 # 5)%Q.
Proof.
  destruct (one_empty_list_scores three_methods)
    as (r & r' & H & _ & (_ & _ & _ & Ho) & _).
  - discriminate.
  - reflexivity.
  - exists r. split; assumption.
Defined.

(** ** The order of the methods *)

Section MethodOrder.
Local Open Scope Q_scope.

Lemma mapM_features_eq (ms : list method) :
  forallb resolves ms = true ->
  mapM get_method_features ms = OK (map feature_set ms).
Proof.
  intros H. apply mapM_OK_Forall2.
  induction ms as [|m ms IH]; cbn [map]; constructor.
  - apply get_method_features_eq. cbn [forallb] in H. now apply andb_true_iff in H.
  - apply IH. cbn [forallb] in H. now apply andb_true_iff in H.
Qed.













End MethodOrder.



(** ** Extreme values of the metrics *)

Section Extremes.
Local Open Scope Q_scope.

Lemma of_int_inj (a b : nat) : of_int a == of_int b -> a = b.
Proof. unfold of_int, Qeq. simpl. lia. Qed.

Lemma quotient_one_iff (a b : nat) :
  (0 < b)%nat -> (of_int a / of_int b == 1 <-> a = b).
Proof.
  intros Hb. pose proof (of_int_pos b Hb) as Hpos. split.
  - intros H. apply of_int_inj.
    rewrite <- (Qmult_div_r (of_int a) (of_int b)) by lra.
    rewrite H. ring.
  - intros ->. apply quotient_self. lra.
Qed.

Lemma quotient_zero_iff (a b : nat) :
  (0 < b)%nat -> (of_int a / of_int b == 0 <-> a = 0%nat).
Proof.
  intros Hb. pose proof (of_int_pos b Hb) as Hpos. split.
  - intros H. apply of_int_inj.
    rewrite <- (Qmult_div_r (of_int a) (of_int b)) by lra.
    rewrite H. change (of_int 0) with 0. ring.
  - intros ->. change (of_int 0) with 0. unfold Qdiv. ring.
Qed.

Lemma size_common_max_iff (X Y : gset string) :
  size (X ∩ Y) = Nat.max (size X) (size Y) <-> X = Y.
Proof.
  split.
  - intros H.
    assert (X ∩ Y = X) as HX.
    { apply set_subseteq_size_eq; [apply intersection_subseteq_l|lia]. }
    assert (X ∩ Y = Y) as HY.
    { apply set_subseteq_size_eq; [apply intersection_subseteq_r|lia]. }
    congruence.
  - intros ->. rewrite intersection_idemp_L. lia.
Qed.

Lemma size_common_zero_iff (X Y : gset string) : size (X ∩ Y) = 0%nat <-> X ## Y.
Proof.
  rewrite disjoint_intersection_L. split.
  - intros H. apply leibniz_equiv. now apply size_empty_iff.
  - intros ->. apply size_empty.
Qed.

Lemma name_similarity_extremes attr (ms1 ms2 : list method) :
  ms1 <> [] \/ ms2 <> [] ->
  exists v, name_similarity attr ms1 ms2 = OK v
    /\ (v == 1 <-> (list_to_set (map attr ms1) : gset string) = list_to_set (map attr ms2))
    /\ (v == 0 <-> (list_to_set (map attr ms1) : gset string) ## list_to_set (map attr ms2)).
Proof.
  intros Hne. unfold name_similarity.
  set (X := list_to_set (map attr ms1) : gset string).
  set (Y := list_to_set (map attr ms2) : gset string).
  assert (0 < Nat.max (size X) (size Y))%nat as Hpos.
  { assert (0 < size X \/ 0 < size Y)%nat as H; [|lia].
    destruct Hne as [H|H]; [left|right]; apply size_list_to_set_pos;
      intros E; apply map_eq_nil in E; contradiction. }
  rewrite truediv_nonzero by (rewrite of_int_zero_iff; lia).
  eexists. split; [reflexivity|]. split.
  - rewrite (quotient_one_iff _ _ Hpos). apply size_common_max_iff.
  - rewrite (quotient_zero_iff _ _ Hpos). apply size_common_zero_iff.
Qed.

Lemma size_inter_union_iff (X Y : gset string) :
  size (X ∩ Y) = size (X ∪ Y) <-> X = Y.
Proof.
  split.
  - intros H.
    assert (X ∩ Y = X ∪ Y) as E.
    { apply set_subseteq_size_eq; [|lia].
      intros x Hx. apply elem_of_intersection in Hx as [Hx _].
      now apply elem_of_union_l. }
    apply set_eq. intros x. split; intros Hx.
    + assert (x ∈ X ∪ Y) as H' by now apply elem_of_union_l.
      rewrite <- E in H'. now apply elem_of_intersection in H' as [_ ?].
    + assert (x ∈ X ∪ Y) as H' by now apply elem_of_union_r.
      rewrite <- E in H'. now apply elem_of_intersection in H' as [? _].
  - intros ->. now rewrite intersection_idemp_L, union_idemp_L.
Qed.

Lemma min_max_ratio_extremes (a b : Q) :
  0 <= a -> 0 <= b ->
  exists v, min_max_ratio a b = OK v
    /\ (v == 1 <-> a == b)
    /\ (v == 0 <-> (a == 0 /\ 0 < b) \/ (0 < a /\ b == 0)).
Proof.
  intros Ha Hb. unfold min_max_ratio.
  destruct (Qltb 0 (py_max a b)) eqn:E.
  - assert (0 < py_max a b) as Hpos by now apply Qltb_lt.
    rewrite truediv_nonzero by lra.
    eexists. split; [reflexivity|].
    assert (forall x, py_min a b / py_max a b == x <-> py_min a b == x * py_max a b) as Hq.
    { intros x. split; intros H.
      - rewrite <- H. field. lra.
      - rewrite H. field. lra. }
    rewrite !Hq. unfold py_min, py_max in *.
    destruct (Qltb a b) eqn:Eab, (Qltb b a) eqn:Eba;
      rewrite ?Qltb_lt, ?Qltb_ge in *; split; split; intros; lra.
  - apply py_max_pos_iff in E as [Za Zb]; [|assumption..].
    exists 1. split; [reflexivity|]. split; split; intros; lra.
Qed.

Lemma ratio_similarity_extremes attr (ms1 ms2 : list method) :
  exists v, ratio_similarity attr ms1 ms2 = OK v
    /\ (v == 1 <-> spec_mean (map of_int (map attr ms1))
                   == spec_mean (map of_int (map attr ms2)))
    /\ (v == 0 <-> (spec_mean (map of_int (map attr ms1)) == 0
                    /\ 0 < spec_mean (map of_int (map attr ms2)))
                   \/ (0 < spec_mean (map of_int (map attr ms1))
                       /\ spec_mean (map of_int (map attr ms2)) == 0)).
Proof.
  unfold ratio_similarity.
  destruct (average_spec (map attr ms1)) as (a1 & -> & Ha1 & E1).
  destruct (average_spec (map attr ms2)) as (a2 & -> & Ha2 & E2).
  rewrite !bind_OK.
  destruct (min_max_ratio_extremes a1 a2 Ha1 Ha2) as (v & Hv & H1 & H0).
  exists v. split; [assumption|]. rewrite <- E1, <- E2. split; assumption.
Qed.

End Extremes.

(** X10: when the two lists are not both empty, signature similarity is 1
    exactly when the two lists have the same set of signatures and 0
    exactly when they have no signature in common; the same holds for class
    similarity and the sets of class names. *)
Theorem name_metrics_extremes (ms1 ms2 : list method) :
  ms1 <> [] \/ ms2 <> [] ->
  let S (ms : list method) : gset string := list_to_set (map get_method_signature ms) in
  let C (ms : list method) : gset string := list_to_set (map class_name ms) in
  exists s c,
    signature_similarity ms1 ms2 = OK s /\ class_similarity ms1 ms2 = OK c
    /\ ((s == 1)%Q <-> S ms1 = S ms2) /\ ((s == 0)%Q <-> S ms1 ## S ms2)
    /\ ((c == 1)%Q <-> C ms1 = C ms2) /\ ((c == 0)%Q <-> C ms1 ## C ms2).
Proof.
  intros Hne S C.
  destruct (name_similarity_extremes get_method_signature ms1 ms2 Hne)
    as (s & Hs & Hs1 & Hs0).
  destruct (name_similarity_extremes class_name ms1 ms2 Hne) as (c & Hc & Hc1 & Hc0).
  exists s, c. rewrite signature_similarity_names, class_similarity_names. tauto.
Qed.

Lemma name_metrics_extremes_witness :
  exists s c, signature_similarity [greet] three_methods = OK s
              /\ class_similarity [greet; bare "a"; bare "a"] three_methods = OK c
              /\ (s == 0)%Q /\ (c == 1 # 2)%Q.
Proof.
  destruct (name_metrics_extremes [greet] three_methods)
    as (s & _ & Hs & _ & _ & Hs0 & _); [left; discriminate|].
  exists s. eexists. split; [exact Hs|]. split; [vm_compute; reflexivity|].
  split; [|reflexivity].
  apply Hs0. apply disjoint_intersection_L. vm_compute. reflexivity.
Defined.

(** X11: length similarity is 1 exactly when the two mean method lengths
    are equal and 0 exactly when one mean is 0 and the other is not; the
    same holds for basic-block-count similarity and the mean numbers of
    basic blocks. *)
Theorem ratio_metrics_extremes (ms1 ms2 : list method) :
  let mean_of (attr : method -> nat) (ms : list method) :=
    spec_mean (map of_int (map attr ms)) in
  let blocks (m : method) := length (get_basic_blocks m) in
  exists l b,
    length_similarity ms1 ms2 = OK l /\ bb_similarity ms1 ms2 = OK b
    /\ ((l == 1)%Q <-> (mean_of get_length ms1 == mean_of get_length ms2)%Q)
    /\ ((l == 0)%Q <-> ((mean_of get_length ms1 == 0 /\ 0 < mean_of get_length ms2)
                        \/ (0 < mean_of get_length ms1 /\ mean_of get_length ms2 == 0))%Q)
    /\ ((b == 1)%Q <-> (mean_of blocks ms1 == mean_of blocks ms2)%Q)
    /\ ((b == 0)%Q <-> ((mean_of blocks ms1 == 0 /\ 0 < mean_of blocks ms2)
                        \/ (0 < mean_of blocks ms1 /\ mean_of blocks ms2 == 0))%Q).
Proof.
  intros mean_of blocks.
  destruct (ratio_similarity_extremes get_length ms1 ms2) as (l & Hl & Hl1 & Hl0).
  destruct (ratio_similarity_extremes blocks ms1 ms2) as (b & Hb & Hb1 & Hb0).
  exists l, b. rewrite length_similarity_ratio, bb_similarity_ratio.
  split; [assumption|]. split; [assumption|]. tauto.
Qed.

Lemma ratio_metrics_extremes_witness :
  exists l, length_similarity [greet; bare "a"] [foreign_method; bare "b"; greet] = OK l
            /\ (l == 9 # 46)%Q /\ ~ (l == 1)%Q.
Proof.
  destruct (ratio_metrics_extremes [greet; bare "a"] [foreign_method; bare "b"; greet])
    as (l & _ & Hl & _ & Hl1 & _).
  exists l. split; [exact Hl|]. split.
  - vm_compute in Hl. injection Hl as <-. reflexivity.
  - intros E. apply Hl1 in E. vm_compute in E. discriminate E.
Defined.

(** X12: the Jaccard similarity of line 89 does not depend on the order of
    its two sets; it raises [ZeroDivisionError] exactly when both sets are
    empty, and otherwise it is 1 exactly for equal sets and 0 exactly for
    disjoint sets. *)
Theorem jaccard_symmetric_and_extremes (F1 F2 : gset string) :
  jaccard F1 F2 = jaccard F2 F1
  /\ (jaccard F1 F2 = Raise ZeroDivisionError <-> F1 = ∅ /\ F2 = ∅)
  /\ (forall v, jaccard F1 F2 = OK v ->
        ((v == 1)%Q <-> F1 = F2) /\ ((v == 0)%Q <-> F1 ## F2)).
Proof.
  split; [|split].
  - unfold jaccard. rewrite (intersection_comm_L F1), (union_comm_L F1). reflexivity.
  - unfold jaccard, truediv.
    destruct (Qeq_bool (of_int (size (F1 ∪ F2))) 0) eqn:E.
    + apply Qeq_bool_eq, of_int_zero_iff, size_empty_iff in E.
      apply leibniz_equiv in E. apply empty_union_L in E. tauto.
    + split; [discriminate|]. intros [-> ->].
      rewrite union_idemp_L, size_empty in E. discriminate E.
  - intros v H. unfold jaccard in H. apply truediv_OK_inv in H as [Hnz ->].
    rewrite of_int_zero_iff in Hnz.
    assert (0 < size (F1 ∪ F2)) as Hpos by lia.
    rewrite (quotient_one_iff _ _ Hpos), (quotient_zero_iff _ _ Hpos).
    split; [apply size_inter_union_iff|apply size_common_zero_iff].
Qed.

Lemma jaccard_symmetric_and_extremes_witness :
  jaccard {[ "x"; "y" ]} {[ "z" ]} = OK (0 # 3)%Q
  /\ ({[ "x"; "y" ]} : gset string) ## {[ "z" ]}.
Proof.
  assert (jaccard {[ "x"; "y" ]} {[ "z" ]} = OK (0 # 3)%Q) as H
    by (vm_compute; reflexivity).
  split; [exact H|].
  apply (jaccard_symmetric_and_extremes {[ "x"; "y" ]} {[ "z" ]}) in H as [_ H0].
  apply H0. reflexivity.
Defined.

(** ** Feature similarity of related lists *)

Section RelatedLists.
Local Open Scope Q_scope.

Lemma fold_right_Qplus_nonneg (xs : list Q) :
  Forall (fun x => 0 <= x) xs -> 0 <= fold_right Qplus 0 xs.
Proof. induction 1 as [|x xs Hx _ IH]; cbn [fold_right]; lra. Qed.

Lemma fold_right_Qplus_ge (xs : list Q) (x : Q) :
  Forall (fun y => 0 <= y) xs -> In x xs -> x <= fold_right Qplus 0 xs.
Proof.
  induction 1 as [|y ys Hy Hys IH]; cbn [fold_right]; [contradiction|].
  pose proof (fold_right_Qplus_nonneg ys Hys). intros [->|Hin].
  - lra.
  - specialize (IH Hin). lra.
Qed.

Lemma spec_feature_similarity_sub (fs1 fs2 : list (gset string)) :
  fs1 <> [] -> Forall (fun F => F <> ∅) fs1 ->
  (forall F, In F fs1 -> In F fs2) ->
  spec_feature_similarity fs1 fs2 == 1.
Proof.
  intros Hne N Hsub. unfold spec_feature_similarity.
  assert (fold_right Qplus 0 (map (fun F1 => spec_best_match F1 fs2) fs1)
          == of_int (length fs1)) as Hsum.
  { apply sum_of_ones. intros F Hin. apply spec_best_match_self; [|now apply Hsub].
    rewrite List.Forall_forall in N. now apply N. }
  destruct fs1 as [|F fs1]; [congruence|].
  unfold spec_mean. cbn [map] in *. rewrite Hsum. cbn [length]. rewrite length_map.
  apply quotient_self. rewrite of_int_zero_iff. discriminate.
Qed.

Lemma spec_jaccard_pos (F1 F2 : gset string) (t : string) :
  t ∈ F1 -> t ∈ F2 -> 0 < spec_jaccard F1 F2.
Proof.
  intros H1 H2. unfold spec_jaccard.
  destruct (decide (F1 ∪ F2 = ∅)) as [E|Hne].
  - exfalso. assert (t ∈ F1 ∪ F2) as H by now apply elem_of_union_l.
    rewrite E in H. now apply elem_of_empty in H.
  - assert (0 < size (F1 ∩ F2))%nat as Hi.
    { assert (size (F1 ∩ F2) <> 0%nat); [|lia]. apply size_non_empty_iff.
      intros E. assert (t ∈ F1 ∩ F2) as H by now apply elem_of_intersection.
      rewrite E in H. now apply elem_of_empty in H. }
    assert (0 < size (F1 ∪ F2))%nat as Hu.
    { pose proof (size_inter_le_union F1 F2). lia. }
    apply Qlt_shift_div_l; [now apply of_int_pos|].
    rewrite Qmult_0_l. now apply of_int_pos.
Qed.

Lemma spec_feature_similarity_pos (fs1 fs2 : list (gset string)) (F1 F2 : gset string)
    (t : string) :
  In F1 fs1 -> In F2 fs2 -> t ∈ F1 -> t ∈ F2 ->
  0 < spec_feature_similarity fs1 fs2.
Proof.
  intros Hin1 Hin2 Ht1 Ht2. unfold spec_feature_similarity.
  assert (0 < spec_best_match F1 fs2) as Hbest.
  { eapply Qlt_le_trans; [apply (spec_jaccard_pos F1 F2 t Ht1 Ht2)|].
    unfold spec_best_match. apply fold_right_Qmax_ge, in_map, Hin2. }
  assert (0 < fold_right Qplus 0 (map (fun F => spec_best_match F fs2) fs1)) as Hsum.
  { eapply Qlt_le_trans; [exact Hbest|].
    apply fold_right_Qplus_ge.
    - apply List.Forall_forall. intros x Hx. apply in_map_iff in Hx as (F & <- & _).
      apply spec_best_match_bounds.
    - apply (in_map (fun F => spec_best_match F fs2)), Hin1. }
  destruct fs1 as [|F fs1]; [contradiction|].
  unfold spec_mean. cbn [map] in *.
  apply Qlt_shift_div_l; [apply of_int_pos; simpl; lia|].
  rewrite Qmult_0_l. exact Hsum.
Qed.

Lemma forallb_resolves_sub (ms1 ms2 : list method) :
  (forall m, In m ms1 -> In m ms2) ->
  forallb resolves ms2 = true -> forallb resolves ms1 = true.
Proof.
  intros Hsub. rewrite !forallb_forall. intros H m Hm. apply H, Hsub, Hm.
Qed.

Lemma metrics_OK_bounds (ms1 ms2 : list method) (r : report) :
  metrics ms1 ms2 = OK r ->
  0 <= rep_signature r <= 1 /\ 0 <= rep_feature r <= 1 /\ 0 <= rep_class r <= 1
  /\ 0 <= rep_length r <= 1 /\ 0 <= rep_bb r <= 1
  /\ rep_overall r * 5
     == rep_signature r + rep_feature r + rep_class r + rep_length r + rep_bb r.
Proof.
  unfold metrics. intros H.
  apply bind_OK_inv in H as (s & Hs & H).
  apply bind_OK_inv in H as (f & Hf & H).
  apply bind_OK_inv in H as (c & Hc & H).
  apply bind_OK_inv in H as (l & Hl & H).
  apply bind_OK_inv in H as (b & Hb & H).
  rewrite overall_similarity_mean, bind_OK in H. injection H as <-.
  cbn [rep_signature rep_feature rep_class rep_length rep_bb rep_overall].
  rewrite signature_similarity_names in Hs. apply name_similarity_bounds in Hs.
  apply feature_similarity_bounds in Hf.
  rewrite class_similarity_names in Hc. apply name_similarity_bounds in Hc.
  rewrite length_similarity_ratio in Hl. rewrite bb_similarity_ratio in Hb.
  destruct (ratio_similarity_spec get_length ms1 ms2) as (l' & Hl' & _ & Bl).
  destruct (ratio_similarity_spec (fun m => length (get_basic_blocks m)) ms1 ms2)
    as (b' & Hb' & _ & Bb).
  assert (l' = l) as -> by congruence. assert (b' = b) as -> by congruence.
  repeat (split; [assumption|]). field.
Qed.

End RelatedLists.

(** X13: when every method of a non-empty first list also occurs in the
    second list (whose string loads resolve), feature similarity is exactly
    1, however many other methods the second list has. *)
Theorem feature_similarity_of_sublist (ms1 ms2 : list method) :
  ms1 <> [] -> (forall m, In m ms1 -> In m ms2) ->
  forallb resolves ms2 = true ->
  exists f, feature_similarity ms1 ms2 = OK f /\ (f == 1)%Q.
Proof.
  intros Hne Hsub R2. pose proof (forallb_resolves_sub ms1 ms2 Hsub R2) as R1.
  unfold feature_similarity.
  rewrite (mapM_features_eq ms1 R1), bind_OK, (mapM_features_eq ms2 R2), bind_OK.
  pose proof (mapM_features_nonempty _ _ (mapM_features_eq ms1 R1)) as N.
  destruct (avg_similarity_spec (map feature_set ms1) (map feature_set ms2) N)
    as (f & Hf & Ef).
  exists f. split; [assumption|]. rewrite Ef.
  apply spec_feature_similarity_sub; [|assumption|].
  - intros E. apply map_eq_nil in E. contradiction.
  - intros F HF. apply in_map_iff in HF as (m & <- & Hm). apply in_map, Hsub, Hm.
Qed.

Lemma feature_similarity_of_sublist_witness :
  exists f, feature_similarity [bare "c"; bare "a"] three_methods = OK f /\ (f == 1)%Q.
Proof.
  apply feature_similarity_of_sublist.
  - discriminate.
  - intros m [<-|[<-|[]]]; unfold three_methods; simpl; auto.
  - reflexivity.
Defined.

(** X14: when some method of the first list has the same [full_name] as a
    method of the second list (and all string loads resolve), feature
    similarity is strictly positive: a shared signature is a shared
    feature. *)
Theorem shared_signature_gives_positive_feature_similarity
    (ms1 ms2 : list method) (m1 m2 : method) :
  In m1 ms1 -> In m2 ms2 -> full_name m1 = full_name m2 ->
  forallb resolves ms1 = true -> forallb resolves ms2 = true ->
  exists f, feature_similarity ms1 ms2 = OK f /\ (0 < f)%Q.
Proof.
  intros H1 H2 Hn R1 R2. unfold feature_similarity.
  rewrite (mapM_features_eq ms1 R1), bind_OK, (mapM_features_eq ms2 R2), bind_OK.
  pose proof (mapM_features_nonempty _ _ (mapM_features_eq ms1 R1)) as N.
  destruct (avg_similarity_spec (map feature_set ms1) (map feature_set ms2) N)
    as (f & Hf & Ef).
  exists f. split; [assumption|]. rewrite Ef.
  apply (spec_feature_similarity_pos _ _ (feature_set m1) (feature_set m2)
           (signature_token m1)).
  - now apply in_map.
  - now apply in_map.
  - apply elem_of_feature_set. now left.
  - apply elem_of_feature_set. left. unfold signature_token. now rewrite Hn.
Qed.

Lemma shared_signature_gives_positive_feature_similarity_witness :
  exists f, feature_similarity [caller_a; greet] [bare "a"; caller_b] = OK f /\ (0 < f)%Q.
Proof.
  apply (shared_signature_gives_positive_feature_similarity
           [caller_a; greet] [bare "a"; caller_b] caller_a caller_b).
  - now left.
  - right. now left.
  - reflexivity.
  - reflexivity.
  - reflexivity.
Defined.

(** X15: whenever the metrics are defined, the overall score is 1 exactly
    when all five metrics are 1 and 0 exactly when all five are 0. *)
Theorem overall_score_extremes (ms1 ms2 : list method) (r : report) :
  metrics ms1 ms2 = OK r ->
  ((rep_overall r == 1)%Q
   <-> (rep_signature r == 1 /\ rep_feature r == 1 /\ rep_class r == 1
        /\ rep_length r == 1 /\ rep_bb r == 1)%Q)
  /\ ((rep_overall r == 0)%Q
      <-> (rep_signature r == 0 /\ rep_feature r == 0 /\ rep_class r == 0
           /\ rep_length r == 0 /\ rep_bb r == 0)%Q).
Proof.
  intros H. apply metrics_OK_bounds in H as (Hs & Hf & Hc & Hl & Hb & Ho).
  split; split.
  - intros E. rewrite E in Ho. repeat split; lra.
  - intros (Es & Ef & Ec & El & Eb). rewrite Es, Ef, Ec, El, Eb in Ho. lra.
  - intros E. rewrite E in Ho. repeat split; lra.
  - intros (Es & Ef & Ec & El & Eb). rewrite Es, Ef, Ec, El, Eb in Ho. lra.
Qed.

Lemma overall_score_extremes_witness :
  exists r, metrics [bare "a"] [bare "b"] = OK r /\ ~ (rep_overall r == 1)%Q
            /\ (rep_signature r == 0)%Q.
Proof.
  destruct (metrics [bare "a"] [bare "b"]) as [r|e] eqn:E;
    [|vm_compute in E; discriminate E].
  destruct (overall_score_extremes [bare "a"] [bare "b"] r E) as [[H1 _] _].
  exists r. split; [reflexivity|].
  vm_compute in E. injection E as <-. split.
  - intros Eo. apply H1 in Eo as (Es & _). vm_compute in Es. discriminate Es.
  - reflexivity.
Defined.

(** ** The shape of a token *)

Section TokenShape.
Local Open Scope Z_scope.

Lemma le_bytes_range (n : nat) (x : Z) :
  Forall (fun b => 0 <= b < 256) (MD5.le_bytes n x).
Proof.
  revert x. induction n as [|n IH]; intros x; cbn [MD5.le_bytes]; constructor.
  - change 255 with (Z.ones 8). rewrite Z.land_ones by lia.
    apply Z.mod_pos_bound. reflexivity.
  - apply IH.
Qed.

Lemma digest_bytes (msg : list Z) :
  length (MD5.digest msg) = 16%nat /\ Forall (fun b => 0 <= b < 256) (MD5.digest msg).
Proof.
  unfold MD5.digest.
  destruct (fold_left MD5.compress _ MD5.init) as [[[a b] c] d]. split.
  - reflexivity.
  - repeat (apply Forall_app; split); apply le_bytes_range.
Qed.

Lemma hex_digit_range (x : Z) :
  0 <= x < 16 -> In (MD5.hex_digit x) (list_ascii_of_string "0123456789abcdef").
Proof.
  intros H. unfold MD5.hex_digit.
  assert (Z.to_nat x < 16)%nat as Hn by lia.
  destruct (Z.to_nat x) as [|n]; [simpl; tauto|].
  do 15 (destruct n as [|n]; [simpl; tauto|]). lia.
Qed.

Lemma hex_shape (bs : list Z) :
  Forall (fun b => 0 <= b < 256) bs ->
  String.length (MD5.hex bs) = (2 * length bs)%nat
  /\ Forall (fun c => In c (list_ascii_of_string "0123456789abcdef"))
            (list_ascii_of_string (MD5.hex bs)).
Proof.
  induction 1 as [|b bs Hb _ [IHl IHc]]; cbn [MD5.hex length list_ascii_of_string].
  - split; [reflexivity|constructor].
  - split; [cbn [String.length]; lia|].
    constructor; [|constructor; [|assumption]]; apply hex_digit_range.
    + rewrite Z.shiftr_div_pow2 by lia. change (2 ^ 4) with 16.
      split; [apply Z.div_pos; lia|apply Z.div_lt_upper_bound; lia].
    + change 15 with (Z.ones 4). rewrite Z.land_ones by lia.
      apply Z.mod_pos_bound. reflexivity.
Qed.

End TokenShape.

(** X16: every token is a string of exactly 32 characters, each of them
    one of [0123456789abcdef], whatever the hashed text and its length. *)
Theorem hash_feature_shape (feature : string) :
  String.length (hash_feature feature) = 32
  /\ Forall (fun c => In c (list_ascii_of_string "0123456789abcdef"))
            (list_ascii_of_string (hash_feature feature)).
Proof.
  unfold hash_feature, MD5.hexdigest.
  destruct (digest_bytes (MD5.bytes_of_string feature)) as [Hl Hb].
  destruct (hex_shape _ Hb) as [Hlen Hc]. rewrite Hl in Hlen. split; assumption.
Qed.

(** ** Growing the second list, repeating a method *)

Section Growth.
Local Open Scope Q_scope.

Lemma fold_right_Qmax_nonneg (xs : list Q) : 0 <= fold_right Qmax 0 xs.
Proof.
  induction xs as [|x xs IH]; cbn [fold_right]; [lra|].
  apply (Qle_trans _ _ _ IH), Q.le_max_r.
Qed.

Lemma fold_right_Qmax_incl (xs ys : list Q) :
  (forall x, In x xs -> In x ys) -> fold_right Qmax 0 xs <= fold_right Qmax 0 ys.
Proof.
  induction xs as [|x xs IH]; intros H; cbn [fold_right].
  - apply fold_right_Qmax_nonneg.
  - apply Q.max_lub.
    + apply fold_right_Qmax_ge, H. now left.
    + apply IH. intros y Hy. apply H. now right.
Qed.

Lemma fold_right_Qplus_le {A : Type} (g g' : A -> Q) (l : list A) :
  (forall x, g x <= g' x) ->
  fold_right Qplus 0 (map g l) <= fold_right Qplus 0 (map g' l).
Proof.
  intros H. induction l as [|x l IH]; cbn [map fold_right]; [lra|].
  specialize (H x). lra.
Qed.

Lemma spec_feature_similarity_mono (fs1 fs2 fs2' : list (gset string)) :
  (forall F, In F fs2 -> In F fs2') ->
  spec_feature_similarity fs1 fs2 <= spec_feature_similarity fs1 fs2'.
Proof.
  intros Hsub. unfold spec_feature_similarity.
  pose proof (fold_right_Qplus_le (fun F1 => spec_best_match F1 fs2)
                (fun F1 => spec_best_match F1 fs2') fs1) as Hsum.
  destruct fs1 as [|F fs1]; [cbn; lra|].
  unfold spec_mean. cbn [map] in *. cbn [length]. rewrite !length_map.
  assert (0 < of_int (S (length fs1))) as Hpos by (apply of_int_pos; lia).
  apply Qle_shift_div_l; [assumption|].
  unfold Qdiv. rewrite <- Qmult_assoc, (Qmult_comm (/ _)), Qmult_inv_r, Qmult_1_r by lra.
  apply Hsum. intros F1. unfold spec_best_match.
  apply fold_right_Qmax_incl. intros x Hx.
  apply in_map_iff in Hx as (F2 & <- & HF2). apply in_map, Hsub, HF2.
Qed.

Lemma list_to_set_repeat (x : string) (l : list string) :
  In x l -> (list_to_set (x :: l) : gset string) = list_to_set l.
Proof.
  intros H. cbn [list_to_set]. apply set_eq. intros y.
  rewrite elem_of_union, elem_of_singleton, elem_of_list_to_set, list_elem_of_In.
  split; [intros [->|Hy]; assumption|auto].
Qed.

Lemma name_similarity_repeat attr (m : method) (ms1 ms2 : list method) :
  In m ms1 ->
  name_similarity attr (m :: ms1) ms2 = name_similarity attr ms1 ms2
  /\ name_similarity attr ms2 (m :: ms1) = name_similarity attr ms2 ms1.
Proof.
  intros H. unfold name_similarity. cbn [map].
  rewrite (list_to_set_repeat (attr m) (map attr ms1)) by now apply in_map.
  split; reflexivity.
Qed.

End Growth.

(** X17: feature similarity never decreases when methods are added to the
    second list: if every method of [ms2] also occurs in [ms2'] (and all
    string loads resolve), the feature similarity of [ms1] against [ms2] is
    at most that of [ms1] against [ms2']. *)
Theorem feature_similarity_grows_with_second_list (ms1 ms2 ms2' : list method) :
  (forall m, In m ms2 -> In m ms2') ->
  forallb resolves ms1 = true -> forallb resolves ms2' = true ->
  exists f f', feature_similarity ms1 ms2 = OK f
               /\ feature_similarity ms1 ms2' = OK f' /\ (f <= f')%Q.
Proof.
  intros Hsub R1 R2'. pose proof (forallb_resolves_sub ms2 ms2' Hsub R2') as R2.
  unfold feature_similarity.
  rewrite (mapM_features_eq ms1 R1), !bind_OK.
  rewrite (mapM_features_eq ms2 R2), (mapM_features_eq ms2' R2'), !bind_OK.
  pose proof (mapM_features_nonempty _ _ (mapM_features_eq ms1 R1)) as N.
  destruct (avg_similarity_spec (map feature_set ms1) (map feature_set ms2) N)
    as (f & Hf & Ef).
  destruct (avg_similarity_spec (map feature_set ms1) (map feature_set ms2') N)
    as (f' & Hf' & Ef').
  exists f, f'. split; [assumption|]. split; [assumption|]. rewrite Ef, Ef'.
  apply spec_feature_similarity_mono. intros F HF.
  apply in_map_iff in HF as (m & <- & Hm). apply in_map, Hsub, Hm.
Qed.

Lemma feature_similarity_grows_with_second_list_witness :
  exists f f', feature_similarity three_methods [bare "b"] = OK f
               /\ feature_similarity three_methods [greet; bare "c"; bare "b"] = OK f'
               /\ (f <= f')%Q /\ (f == 1 # 3)%Q /\ (f' == 2 # 3)%Q.
Proof.
  destruct (feature_similarity_grows_with_second_list
              three_methods [bare "b"] [greet; bare "c"; bare "b"])
    as (f & f' & Hf & Hf' & Hle).
  - intros m [<-|[]]. right. right. now left.
  - reflexivity.
  - reflexivity.
  - exists f, f'. repeat (split; [assumption|]).
    vm_compute in Hf, Hf'. injection Hf as <-. injection Hf' as <-.
    split; reflexivity.
Defined.

(** X18: signature and class similarity count each name once: adding to
    either list another copy of a method that the list already contains
    changes neither of them. *)
Theorem repeated_method_keeps_name_metrics (m : method) (ms1 ms2 : list method) :
  In m ms1 ->
  signature_similarity (m :: ms1) ms2 = signature_similarity ms1 ms2
  /\ signature_similarity ms2 (m :: ms1) = signature_similarity ms2 ms1
  /\ class_similarity (m :: ms1) ms2 = class_similarity ms1 ms2
  /\ class_similarity ms2 (m :: ms1) = class_similarity ms2 ms1.
Proof.
  intros H.
  destruct (name_similarity_repeat get_method_signature m ms1 ms2 H) as [S1 S2].
  destruct (name_similarity_repeat class_name m ms1 ms2 H) as [C1 C2].
  split; [exact S1|]. split; [exact S2|]. split; [exact C1|exact C2].
Qed.

Lemma repeated_method_keeps_name_metrics_witness :
  signature_similarity (bare "b" :: three_methods) [greet; bare "b"]
  = signature_similarity three_methods [greet; bare "b"].
Proof.
  destruct (repeated_method_keeps_name_metrics (bare "b") three_methods
              [greet; bare "b"]) as [H _].
  - right. now left.
  - exact H.
Defined.

(** ** The preview text *)

Lemma string_length_append (s1 s2 : string) :
  String.length (s1 ++ s2) = String.length s1 + String.length s2.
Proof. induction s1 as [|c s1 IH]; simpl; [reflexivity|]. now rewrite IH. Qed.

Lemma string_length_concat (names : list string) :
  String.length (String.concat " " names)
  = list_sum (map String.length names) + (length names - 1).
Proof.
  induction names as [|x [|y names] IH].
  - reflexivity.
  - simpl. lia.
  - change (String.concat " " (x :: y :: names))
      with (x ++ " " ++ String.concat " " (y :: names)).
    rewrite !string_length_append, IH. simpl. lia.
Qed.

(** X19: the method body shown in the preview is the instruction names in
    order with one space between neighbours and none at the ends: its
    length is the total length of the names plus the number of instructions
    minus one (0 for a method without instructions). *)
Theorem get_method_body_length (m : method) :
  String.length (get_method_body m)
  = list_sum (map (fun i => String.length (get_name i)) (get_instructions m))
    + (length (get_instructions m) - 1).
Proof.
  unfold get_method_body. rewrite string_length_concat, map_map, length_map.
  reflexivity.
Qed.
